(** * Verification model of the stackable development-loop coordinator

    Shallow embedding of [crates/stackable-cli/src/lib.rs]: the debounced
    change watcher ([Stackctl::watch_changes]), the log relay
    ([transfer_to_file]), the two-stage build pipeline ([build_frontend],
    [build_backend]), the supervisor ([serve_once]) and the development loop
    ([run_serve], [run_build], [run]).  Time is measured in milliseconds as [Z]. *)

From Stdlib Require Import ZArith List String Bool Lia Sorted.
Import ListNotations.

(* ================================================================= *)
(** ** The change watcher *)

Module Watch.

Open Scope Z_scope.

(** [str::starts_with]. *)
Fixpoint starts_with (p s : string) : bool :=
  match p, s with
  | EmptyString, _ => true
  | String a p', String b s' => Ascii.eqb a b && starts_with p' s'
  | String _ _, EmptyString => false
  end.

(** [str::contains]: [p] occurs somewhere in [s]. *)
Fixpoint contains (s p : string) : bool :=
  starts_with p s ||
  match s with
  | EmptyString => false
  | String _ s' => contains s' p
  end.

(** The filter closure of [watch_changes] (lines 74-87). *)
Definition relevant (p_str : string) : bool :=
  if contains p_str "target/" then false
  else if contains p_str ".stackable/" then false
  else if negb (contains p_str "src/") then false
  else true.

(** [sleep(Duration::from_millis(100))]. *)
Definition debounce_ms : Z := 100.

(** A path reported by the notify callback, with the instant it is pushed
    into the unbounded channel. *)
Record ChangeEvent := { ev_path : string; ev_time : Z }.

(** State of the [unfold] closure (lines 90-113), observed when the
    consumer is waiting on the stream:
    - [None]: blocked on [stream.next().await?], waiting for a first item;
    - [Some dl]: inside the [select!] loop, with [sleep_fur] armed to fire
      at [dl].  [sleep_fur] is created once per emitted item, right after
      the first item, and is never re-armed inside the loop.
    The second component lists the [SystemTime::now()] values emitted so
    far; an item is emitted when the timer wins the race, at its deadline. *)
Definition debounce_step (st : option Z * list Z) (t : Z) : option Z * list Z :=
  let '(armed, out) := st in
  match armed with
  | None => (Some (t + debounce_ms), out)
  | Some dl =>
      if t <? dl
      then (* [next_path_fur] wins: the path is drained, the loop restarts
              the race against the same [sleep_fur] *)
        (Some dl, out)
      else (* [sleep_fur] won first: emit, then [t] is the next first item *)
        (Some (t + debounce_ms), out ++ [dl])
  end.

(** Once no further path arrives, an armed timer eventually fires. *)
Definition debounce_flush (st : option Z * list Z) : list Z :=
  match fst st with
  | None => snd st
  | Some dl => snd st ++ [dl]
  end.

Definition debounce (ts : list Z) : list Z :=
  debounce_flush (fold_left debounce_step ts (None, [])).

(** The trigger timestamps yielded by the stream returned by
    [watch_changes] for the paths reported by the watcher, in order. *)
Definition watch_changes (evs : list ChangeEvent) : list Z :=
  debounce (map ev_time (filter (fun e => relevant (ev_path e)) evs)).

(** Consecutive events strictly farther apart than the interval. *)
Fixpoint spaced_apart (ts : list Z) : Prop :=
  match ts with
  | t1 :: ((t2 :: _) as rest) => t2 - t1 > debounce_ms /\ spaced_apart rest
  | _ => True
  end.

(** Consecutive events strictly less than the interval apart. *)
Fixpoint burst (ts : list Z) : Prop :=
  match ts with
  | t1 :: ((t2 :: _) as rest) => t1 <= t2 /\ t2 - t1 < debounce_ms /\ burst rest
  | _ => True
  end.

Definition all_relevant (evs : list ChangeEvent) : Prop :=
  Forall (fun e => relevant (ev_path e) = true) evs.

End Watch.

(* ================================================================= *)
(** ** The build pipeline, the supervisor and the development loop *)

Module Stackctl.

Open Scope string_scope.

(** [cli::Command]: the subcommand held in [self.cli.command]. *)
Inductive Command :=
| Serve (open : bool)
| Build (release : bool).

(** [Stackctl::is_release] (lines 116-121). *)
Definition is_release (c : Command) : bool :=
  match c with
  | Serve _ => false
  | Build _ => true
  end.

(** [PathBuf::join] with a relative component. *)
Definition join (a b : string) : string := a ++ "/" ++ b.

Inductive Stdio := Null | Piped | Inherit.

Definition Stdio_eqb (x y : Stdio) : bool :=
  match x, y with
  | Null, Null | Piped, Piped | Inherit, Inherit => true
  | _, _ => false
  end.

(** A configured [tokio::process::Command]. *)
Record Proc := mkProc {
  program : string;
  args : list string;
  current_dir : string;
  envs : list (string * string);
  stdin : Stdio;
  stdout : Stdio;
  stderr : Stdio;
  kill_on_drop : bool }.

Definition arg (p : Proc) (a : string) : Proc :=
  mkProc (program p) (args p ++ [a]) (current_dir p) (envs p)
         (stdin p) (stdout p) (stderr p) (kill_on_drop p).

Definition set_stdout (p : Proc) (io : Stdio) : Proc :=
  mkProc (program p) (args p) (current_dir p) (envs p)
         (stdin p) io (stderr p) (kill_on_drop p).

Definition set_stderr (p : Proc) (io : Stdio) : Proc :=
  mkProc (program p) (args p) (current_dir p) (envs p)
         (stdin p) (stdout p) io (kill_on_drop p).

(** A spawned [tokio::process::Child]: the spawn index identifies it. *)
Record Child := mkChild { child_id : nat; child_proc : Proc }.

(** Observable effects, in program order.  [Relay n t] is the detached copy
    task spawned by the n-th [transfer_to_file]; [Dropped n] is the drop of a live
    [Child] handle created with [kill_on_drop(true)]. *)
Inductive Action :=
| CreateDir (p : string)
| Spawned (n : nat) (p : Proc)
| Relay (n : nat) (target : string)
| CopyFile (src dst : string)
| Probe (n : nat) (k : nat) (addr : string)
| Killed (n : nat)
| KillFailed (n : nat)
| Dropped (n : nat)
| Logged (msg : string)
| Printed (msg : string)
| BuiltIn (ms : Z).   (* [eprintln!] of ["Built in {:.2}s!"], [ms] / 1000 seconds *)

Inductive ChildOutcome :=
| SpawnFails
| WaitFails
| Exits (success : bool).

(** Outcome of one iteration of the health-check loop (lines 470-480). *)
Inductive ProbeOutcome :=
| ClientBuildFails      (* [ClientBuilder::build()?] fails *)
| Ready                 (* [send().await.and_then(error_for_status)] is [Ok] *)
| NotReady.             (* connection error or non-success status *)

(** One [source.read(&mut buf)] of the relay loop: [ReadChunk 0] is EOF. *)
Inductive ReadOutcome :=
| ReadChunk (len : nat)
| ReadErr (e : string).

(** Everything the program observes of its environment, indexed by the
    order in which it asks. *)
Record World := mkWorld {
  w_workspace : option string;       (* [manifest_path.canonicalize()?.parent()] when
                                        both succeed; the manifest does not move *)
  w_bin_name : string;               (* [manifest.dev_server.bin_name] *)
  w_listen : string;                 (* [manifest.dev_server.listen] *)
  w_watch_ok : bool;                 (* [recommended_watcher] and [watch] succeed *)
  w_child : nat -> ChildOutcome;     (* the n-th [spawn()] and its [wait()] *)
  w_create : nat -> bool;            (* the n-th [fs::File::create] *)
  w_relay_io : nat -> list ReadOutcome * list bool;
                                     (* reads and writes of the n-th relay task *)
  w_rand : nat -> option string;     (* the n-th [random_str()]; [None]: it fails *)
  w_target_dir : option string;      (* [target_directory] of the parsed metadata *)
  w_files : string -> bool;          (* paths [fs::copy] can read *)
  w_probe : nat -> ProbeOutcome;     (* the n-th health probe *)
  w_clock : nat -> Z;                (* the n-th [SystemTime::now()], in ms *)
  w_kill : nat -> bool;              (* [Child::kill] of the n-th child succeeds *)
  w_term_ok : bool;                  (* [Term::stderr().clear_screen()] succeeds *)
  w_mkdir : string -> bool;          (* directories [fs::create_dir_all] can create *)
  w_json_ok : bool;                  (* [meta.to_json()] succeeds *)
  w_canon_err : option string }.     (* the io error of [canonicalize()], if it fails *)

(** Program state: the effects so far, the position reached in each of the
    world's sequences, and the remaining items of the trigger stream. *)
Record St := mkSt {
  st_trace : list Action;
  st_spawns : nat;
  st_creates : nat;
  st_rands : nat;
  st_probes : nat;
  st_clock : nat;
  st_changes : list Z }.

Definition tell_st (a : Action) (s : St) : St :=
  mkSt (st_trace s ++ [a]) (st_spawns s) (st_creates s) (st_rands s)
       (st_probes s) (st_clock s) (st_changes s).
Definition next_spawn (s : St) : St :=
  mkSt (st_trace s) (S (st_spawns s)) (st_creates s) (st_rands s)
       (st_probes s) (st_clock s) (st_changes s).
Definition next_create (s : St) : St :=
  mkSt (st_trace s) (st_spawns s) (S (st_creates s)) (st_rands s)
       (st_probes s) (st_clock s) (st_changes s).
Definition next_rand (s : St) : St :=
  mkSt (st_trace s) (st_spawns s) (st_creates s) (S (st_rands s))
       (st_probes s) (st_clock s) (st_changes s).
Definition next_probe (s : St) : St :=
  mkSt (st_trace s) (st_spawns s) (st_creates s) (st_rands s)
       (S (st_probes s)) (st_clock s) (st_changes s).
Definition next_clock (s : St) : St :=
  mkSt (st_trace s) (st_spawns s) (st_creates s) (st_rands s)
       (st_probes s) (S (st_clock s)) (st_changes s).
Definition set_changes (ts : list Z) (s : St) : St :=
  mkSt (st_trace s) (st_spawns s) (st_creates s) (st_rands s)
       (st_probes s) (st_clock s) ts.

(** [anyhow::Result], plus [Pending] for a computation still running when
    its fuel (a bound on loop iterations) runs out. *)
Inductive Res (A : Type) :=
| Ok (a : A)
| Err (e : string)
| Pending.
Arguments Ok {A} a.
Arguments Err {A} e.
Arguments Pending {A}.

Definition M (A : Type) : Type := St -> Res A * St.

Definition ret {A} (a : A) : M A := fun s => (Ok a, s).
Definition bail {A} (e : string) : M A := fun s => (Err e, s).
Definition pending {A} : M A := fun s => (Pending, s).
Definition bind {A B} (m : M A) (f : A -> M B) : M B :=
  fun s => match m s with
           | (Ok a, s') => f a s'
           | (Err e, s') => (Err e, s')
           | (Pending, s') => (Pending, s')
           end.
Definition tell (a : Action) : M unit := fun s => (Ok tt, tell_st a s).

Notation "x <- m ;; k" := (bind m (fun x => k))
  (at level 61, m at next level, right associativity).

Section Program.

(** The environment and [self.cli.command]. *)
Variable w : World.
Variable cmd : Command.
(** Bound on the number of health probes of one [serve_once]. *)
Variable poll_fuel : nat.

(** [Stackctl::workspace_dir] (lines 45-52): without a workspace the call
    fails with the io error of [canonicalize()?] when there is one, and
    with the context of [parent()] otherwise. *)
Definition workspace_dir : M string :=
  match w_workspace w with
  | Some d => ret d
  | None =>
      match w_canon_err w with
      | Some e => bail e
      | None => bail "failed to find workspace directory"
      end
  end.

(** [fs::create_dir_all(p).await.context(ctx)?]. *)
Definition create_dir_all (p ctx : string) : M unit :=
  if w_mkdir w p then tell (CreateDir p) else bail ctx.

(** Modelled from the spec: [utils::random_str()?], whose code is not in
    [src/], gives the fresh random component of a session directory or log
    file name (section 5); the call may fail, and its error propagates. *)
Definition random_str : M string :=
  fun s => match w_rand w (st_rands s) with
           | Some r => (Ok r, next_rand s)
           | None => (Err "failed to generate random string", next_rand s)
           end.

(** [SystemTime::now()]. *)
Definition now : M Z :=
  fun s => (Ok (w_clock w (st_clock s)), next_clock s).

(** [Command::spawn()?]. *)
Definition spawn (p : Proc) : M Child :=
  fun s =>
    let n := st_spawns s in
    match w_child w n with
    | SpawnFails => (Err "failed to spawn process", next_spawn s)
    | _ => (Ok (mkChild n p), tell_st (Spawned n p) (next_spawn s))
    end.

(** [child.wait().await?]: [true] when the exit status is a success. *)
Definition wait (c : Child) : M bool :=
  match w_child w (child_id c) with
  | Exits b => ret b
  | _ => bail "failed to wait for process"
  end.

(** [Child::kill().await.context("failed to stop server")?]. *)
Definition kill (c : Child) : M unit :=
  fun s =>
    if w_kill w (child_id c)
    then (Ok tt, tell_st (Killed (child_id c)) s)
    else (Err "failed to stop server", tell_st (KillFailed (child_id c)) s).

(** [fs::copy(src, dst).await.context("failed to copy binary")?]. *)
Definition copy (src dst : string) : M unit :=
  if w_files w src then tell (CopyFile src dst) else bail "failed to copy binary".

(** [Stackctl::build_dir] (lines 126-134). *)
Definition build_dir : M string :=
  ws <- workspace_dir ;;
  let data_dir := join ws "build" in
  _ <- create_dir_all data_dir "failed to create build directory" ;;
  ret data_dir.

(** [Stackctl::data_dir] (lines 139-147). *)
Definition data_dir : M string :=
  ws <- workspace_dir ;;
  let data_dir := join ws ".stackable" in
  _ <- create_dir_all data_dir "failed to create data directory" ;;
  ret data_dir.

(** [Stackctl::frontend_data_dir] (lines 149-157). *)
Definition frontend_data_dir : M string :=
  d <- data_dir ;;
  let frontend_data_dir := join d "frontend" in
  _ <- create_dir_all frontend_data_dir "failed to create frontend data directory" ;;
  ret frontend_data_dir.

(** [Stackctl::backend_data_dir] (lines 159-167). *)
Definition backend_data_dir : M string :=
  d <- data_dir ;;
  let backend_data_dir := join d "backend" in
  _ <- create_dir_all backend_data_dir "failed to create backend data directory" ;;
  ret backend_data_dir.

(** [Stackctl::frontend_build_dir] (lines 169-186). *)
Definition frontend_build_dir : M string :=
  frontend_build_dir <-
    match cmd with
    | Build _ => b <- build_dir ;; ret (join b "frontend")
    | Serve _ =>
        f <- frontend_data_dir ;;
        r <- random_str ;;
        ret (join (join f "dev-builds") r)
    end ;;
  _ <- create_dir_all frontend_build_dir
         "failed to create build directory for frontend build." ;;
  ret frontend_build_dir.

(** [Stackctl::backend_build_dir] (lines 188-205). *)
Definition backend_build_dir : M string :=
  backend_build_dir <-
    match cmd with
    | Build _ => b <- build_dir ;; ret (join b "backend")
    | Serve _ =>
        f <- backend_data_dir ;;
        r <- random_str ;;
        ret (join (join f "dev-builds") r)
    end ;;
  _ <- create_dir_all backend_build_dir
         "failed to create build directory for backend build." ;;
  ret backend_build_dir.

(** [Stackctl::transfer_to_file] (lines 207-243): the target file is
    created by the caller's task; the copy loop [inner] runs in a task
    spawned without keeping its handle, so the caller only records that
    the task exists (its run is [relay_task] below). *)
Definition transfer_to_file (target : string) : M unit :=
  fun s =>
    if w_create w (st_creates s)
    then (Ok tt, tell_st (Relay (st_creates s) target) (next_create s))
    else (Err ("failed to create " ++ target), next_create s).

(** The copy loop [inner] (lines 217-231), on the outcomes of its reads and
    of its [write_all] calls. *)
Fixpoint copy_loop (reads : list ReadOutcome) (writes : list bool) : Res unit :=
  match reads with
  | [] => Pending
  | ReadErr e :: _ => Err e
  | ReadChunk 0 :: _ => Ok tt
  | ReadChunk (S _) :: reads' =>
      match writes with
      | [] => Pending
      | false :: _ => Err "failed to write chunk"
      | true :: writes' => copy_loop reads' writes'
      end
  end.


(** [tracing::error!] / [eprintln!]. *)
Definition log (msg : string) : M unit := tell (Logged msg).

(** [if let Some(m) = child.stdout.take() { Self::transfer_to_file(..).await?; }]
    and the same for stderr (lines 273-287 and 346-360). *)
Definition relay_output (c : Child) (dir : string) : M unit :=
  _ <- (if Stdio_eqb (stdout (child_proc c)) Piped
        then r <- random_str ;; transfer_to_file (join dir ("log-stdout-" ++ r))
        else ret tt) ;;
  if Stdio_eqb (stderr (child_proc c)) Piped
  then r <- random_str ;; transfer_to_file (join dir ("log-stderr-" ++ r))
  else ret tt.

(** [proc.stdout(Stdio::inherit()).stderr(Stdio::inherit())]. *)
Definition inherit_output (p : Proc) : Proc := set_stderr (set_stdout p Inherit) Inherit.

(** The escalation shared verbatim by [build_frontend] (lines 291-306) and
    [build_backend] (lines 364-379), after the quiet attempt exited with
    [status]. *)
Definition retry_on_failure (create_proc : Proc) (status : bool) : M unit :=
  if status then ret tt
  else if is_release cmd then bail "trunk failed with status"
  else
    child <- spawn (inherit_output create_proc) ;;
    status <- wait child ;;
    if status then ret tt else bail "trunk failed with status".

(** [create_proc] of [build_frontend] (lines 252-269). *)
Definition frontend_proc (frontend_build_dir workspace_dir : string) : Proc :=
  let proc := mkProc "trunk"
                ["build"; "--dist"; frontend_build_dir; join workspace_dir "index.html"]
                workspace_dir [] Null Piped Piped false in
  if is_release cmd
  then set_stderr (set_stdout (arg proc "--release") Inherit) Inherit
  else proc.

(** [Stackctl::build_frontend] (lines 245-309). *)
Definition build_frontend : M string :=
  frontend_data_dir <- frontend_data_dir ;;
  frontend_build_dir <- frontend_build_dir ;;
  workspace_dir <- workspace_dir ;;
  let create_proc := frontend_proc frontend_build_dir workspace_dir in
  child <- spawn create_proc ;;
  _ <- relay_output child frontend_data_dir ;;
  status <- wait child ;;
  _ <- retry_on_failure create_proc status ;;
  ret frontend_build_dir.

(** [create_proc] of [build_backend] (lines 323-342). *)
Definition backend_proc (frontend_build_dir workspace_dir : string) : Proc :=
  let proc := mkProc "cargo" ["build"; "--bin"; w_bin_name w] workspace_dir
                [("STACKABLE_FRONTEND_BUILD_DIR", frontend_build_dir)]
                Null Piped Piped true in
  if is_release cmd
  then set_stderr (set_stdout (arg proc "--release") Inherit) Inherit
  else proc.

(** The [cargo metadata] command of lines 382-389. *)
Definition metadata_proc (workspace_dir : string) : Proc :=
  mkProc "cargo" ["metadata"; "--format-version=1"] workspace_dir []
         Null Piped Piped false.

(** [serde_json::from_slice::<Metadata>(..)?.target_directory]. *)
Definition parse_metadata : M string :=
  match w_target_dir w with
  | Some d => ret d
  | None => bail "failed to parse package metadata"
  end.

(** [Stackctl::build_backend] (lines 311-416). *)
Definition build_backend (frontend_build_dir : string) : M string :=
  backend_data_dir <- backend_data_dir ;;
  workspace_dir <- workspace_dir ;;
  backend_build_dir <- backend_build_dir ;;
  let create_proc := backend_proc frontend_build_dir workspace_dir in
  child <- spawn create_proc ;;
  _ <- relay_output child backend_data_dir ;;
  status <- wait child ;;
  _ <- retry_on_failure create_proc status ;;
  meta_child <- spawn (metadata_proc workspace_dir) ;;
  meta_ok <- (fun s => match wait meta_child s with
                       | (Err _, s') => (Err "failed to read package metadata", s')
                       | r => r
                       end) ;;
  if negb meta_ok then bail "cargo metadata failed with status" else
  target_directory <- parse_metadata ;;
  let bin_path := join (join target_directory "release") (w_bin_name w) in
  let backend_bin_path := join backend_build_dir (w_bin_name w) in
  _ <- copy bin_path backend_bin_path ;;
  ret backend_bin_path.

(** Modelled from the spec: [StackctlMetadata::ENV_NAME] of
    [stackable_core::dev], whose code is not in [src/], names the single
    environment variable of the runtime metadata handoff (section 6); its
    value does not matter here. *)
Definition stackctl_metadata_env : string := "StackctlMetadata::ENV_NAME".

(** Modelled from the spec: the JSON blob
    [{listen_addr: string, frontend_dev_build_dir: path}] of the runtime
    metadata handoff (section 6), which [StackctlMetadata::to_json] of
    [stackable_core::dev], not in [src/], produces; abstracted as a string
    carrying both fields. *)
Definition metadata_json (listen_addr frontend_dev_build_dir : string) : string :=
  "{listen_addr: " ++ listen_addr ++ ", frontend_dev_build_dir: "
  ++ frontend_dev_build_dir ++ "}".

(** [meta.to_json()?]: [StackctlMetadata::to_json] returns a [Result], and
    its error propagates. *)
Definition to_json (listen_addr frontend_dev_build_dir : string) : M string :=
  if w_json_ok w then ret (metadata_json listen_addr frontend_dev_build_dir)
  else bail "failed to serialize metadata".

(** [format!("http://{}/", self.manifest.dev_server.listen)]. *)
Definition http_listen_addr : string := "http://" ++ w_listen w ++ "/".

(** The [cargo run] command of lines 457-468. *)
Definition server_cmd (workspace_dir meta : string) : Proc :=
  mkProc "cargo" ["run"; "--quiet"; "--bin"; w_bin_name w] workspace_dir
         [(stackctl_metadata_env, meta)] Null Inherit Inherit true.

(** The health-check loop of lines 470-480: each iteration builds a client
    ([build()?]), sends one GET and sleeps one second when it is not ready.
    It runs for at most [fuel] iterations of the model. *)
Fixpoint wait_ready (fuel : nat) (server : Child) (addr : string) : M unit :=
  match fuel with
  | O => pending
  | S fuel' =>
      fun s =>
        let k := st_probes s in
        match w_probe w k with
        | ClientBuildFails => (Err "failed to build http client", next_probe s)
        | Ready => (Ok tt, tell_st (Probe (child_id server) k addr) (next_probe s))
        | NotReady =>
            (* sleep(Duration::from_secs(1)).await *)
            wait_ready fuel' server addr
              (tell_st (Probe (child_id server) k addr) (next_probe s))
      end
  end.

(** Leaving the scope of a live [Child] created with [kill_on_drop(true)]
    through an error drops it. *)
Definition drop_on_err {A} (server : Child) (m : M A) : M A :=
  fun s => match m s with
           | (Err e, s') => (Err e, tell_st (Dropped (child_id server)) s')
           | r => r
           end.

(** [Stackctl::serve_once] (lines 436-485); the progress bar is not
    modelled. *)
Definition serve_once : M Child :=
  let http_listen_addr := http_listen_addr in
  workspace_dir <- workspace_dir ;;
  frontend_build_dir <- build_frontend ;;
  _ <- build_backend frontend_build_dir ;;
  meta <- to_json (w_listen w) frontend_build_dir ;;
  server_proc <- spawn (server_cmd workspace_dir meta) ;;
  _ <- drop_on_err server_proc (wait_ready poll_fuel server_proc http_listen_addr) ;;
  ret server_proc.

(** The [open] command of [Stackctl::open_browser] (lines 418-434). *)
Definition open_cmd (workspace_dir addr : string) : Proc :=
  mkProc "open" [addr] workspace_dir [] Null Null Null false.

(** [Stackctl::open_browser]: the exit status is not inspected. *)
Definition open_browser (addr : string) : M unit :=
  workspace_dir <- workspace_dir ;;
  child <- spawn (open_cmd workspace_dir addr) ;;
  _ <- (fun s => match wait child s with
                 | (Err _, s') => (Err "failed to open url", s')
                 | r => r
                 end) ;;
  ret tt.

(** Lines 499-519: [start_time.elapsed()?] (an error when the clock went
    backwards), [i32::try_from(..)?] on the milliseconds (the conversion to
    [f64] cannot fail), [Term::stderr().clear_screen()?] and the lines
    printed, [eprintln!()] printing an empty line; console styling is not
    modelled. *)
Definition report_started (start_time : Z) (addr : string) : M unit :=
  t <- now ;;
  if (t <? start_time)%Z then bail "second time provided was later than self" else
  if (2147483647 <? t - start_time)%Z then bail "out of range integral type conversion attempted" else
  if negb (w_term_ok w) then bail "failed to clear screen" else
  _ <- tell (BuiltIn (t - start_time)) ;;
  _ <- tell (Printed "Stackable development server has started!") ;;
  _ <- tell (Printed "") ;;
  _ <- tell (Printed "") ;;
  _ <- tell (Printed ("    Listen: " ++ addr)) ;;
  _ <- tell (Printed "") ;;
  _ <- tell (Printed "") ;;
  tell (Printed "To produce a production build, you can use `stackctl build --release`").

(** Lines 497-527: the outcome of [serve_once] as [Option<Child>]. *)
Definition serve_iteration (start_time : Z) (addr : string) : M (option Child) :=
  fun s =>
    match serve_once s with
    | (Ok server_proc, s1) =>
        drop_on_err server_proc
          (_ <- report_started start_time addr ;; ret (Some server_proc)) s1
    | (Err e, s1) =>
        (_ <- log ("failed to build development server: " ++ e) ;; ret None) s1
    | (Pending, s1) => (Pending, s1)
    end.

(** Lines 529-531. *)
Definition browser_step (open first_run : bool) (addr : string) : M unit :=
  if open && first_run then open_browser addr else ret tt.

(** The ['inner] loop (lines 535-544) on the remaining trigger stream:
    [Some rest] when a trigger newer than [start_time] ends the wait,
    [None] when the stream ends. *)
Fixpoint skip_stale (start_time : Z) (changes : list Z) : option (list Z) :=
  match changes with
  | [] => None
  | change_time :: rest =>
      if (start_time <? change_time)%Z then Some rest else skip_stale start_time rest
  end.

Definition wait_for_change (start_time : Z) : M bool :=
  fun s =>
    match skip_stale start_time (st_changes s) with
    | None => (Ok false, set_changes [] s)
    | Some rest => (Ok true, set_changes rest s)
    end.

(** Lines 546-548. *)
Definition stop_server (server_proc : option Child) : M unit :=
  match server_proc with
  | Some m => kill m
  | None => ret tt
  end.

(** Dropping the handle when [run_serve] returns while holding it. *)
Definition drop_opt {A} (server_proc : option Child) (m : M A) : M A :=
  match server_proc with
  | Some c => drop_on_err c m
  | None => m
  end.

(** The ['outer] loop (lines 493-549), for at most [iters] iterations. *)
Fixpoint serve_loop (iters : nat) (open first_run : bool) : M unit :=
  match iters with
  | O => pending
  | S iters' =>
      start_time <- now ;;
      let addr := http_listen_addr in
      server_proc <- serve_iteration start_time addr ;;
      _ <- drop_opt server_proc (browser_step open first_run addr) ;;
      let first_run := false in
      changed <- wait_for_change start_time ;;
      if negb changed
      then (* break 'outer: the handle is dropped, [Ok(())] *)
        match server_proc with
        | Some c => _ <- tell (Dropped (child_id c)) ;; ret tt
        | None => ret tt
        end
      else
        _ <- stop_server server_proc ;;
        serve_loop iters' open first_run
  end.

(** [Stackctl::run_serve] (lines 487-552): the trigger stream is the state's
    [st_changes], the items the stream of [watch_changes] yields in order. *)
Definition run_serve (iters : nat) (open : bool) : M unit :=
  _ <- workspace_dir ;;
  if negb (w_watch_ok w) then bail "failed to watch workspace" else
  serve_loop iters open true.

(** [Stackctl::run_build] (lines 554-583); console styling is not modelled. *)
Definition run_build (release : bool) : M unit :=
  if negb release then bail "building distributable in debug mode is not yet supported!" else
  _ <- tell (Printed "Building Release Distribution...") ;;
  start_time <- now ;;
  frontend_build_dir <- build_frontend ;;
  backend_build_path <- build_backend frontend_build_dir ;;
  t <- now ;;
  if (t <? start_time)%Z then bail "second time provided was later than self" else
  if (2147483647 <? t - start_time)%Z then bail "out of range integral type conversion attempted" else
  _ <- tell (BuiltIn (t - start_time)) ;;
  tell (Printed ("The server binary is available at: " ++ backend_build_path)).

(** [Stackctl::run] (lines 585-596); [run_serve] gets at most [iters]
    iterations of its loop. *)
Definition run (iters : nat) : M unit :=
  match cmd with
  | Serve open => run_serve iters open
  | Build release => run_build release
  end.

End Program.

End Stackctl.

(* ================================================================= *)
(** ** Proofs: the change watcher *)

Module WatchProofs.
Import Watch.
Open Scope Z_scope.

Lemma filter_all_relevant evs :
  all_relevant evs -> filter (fun e => relevant (ev_path e)) evs = evs.
Proof.
  induction 1 as [|e evs' He _ IH]; simpl; [reflexivity|].
  now rewrite He, IH.
Qed.

Lemma debounce_drain dl out ts :
  Forall (fun t => t < dl) ts ->
  fold_left debounce_step ts (Some dl, out) = (Some dl, out).
Proof.
  induction 1 as [|t ts' Ht _ IH]; simpl; [reflexivity|].
  replace (t <? dl) with true by (symmetry; apply Z.ltb_lt; exact Ht).
  exact IH.
Qed.

Lemma debounce_spaced t ts out :
  spaced_apart (t :: ts) ->
  debounce_flush (fold_left debounce_step ts (Some (t + debounce_ms), out))
  = out ++ map (fun x => x + debounce_ms) (t :: ts).
Proof.
  revert t out; induction ts as [|t2 ts IH]; intros t out Hs.
  - reflexivity.
  - destruct Hs as [Hgap Hs]. simpl.
    replace (t2 <? t + debounce_ms) with false
      by (symmetry; apply Z.ltb_ge; lia).
    rewrite (IH t2 _ Hs), <- app_assoc. reflexivity.
Qed.


(** The three-event burst used below: consecutive gaps of 90ms. *)
Definition burst3 : list ChangeEvent :=
  [ {| ev_path := "crate/src/main.rs"; ev_time := 0 |};
    {| ev_path := "crate/src/main.rs"; ev_time := 90 |};
    {| ev_path := "crate/src/lib.rs"; ev_time := 180 |} ].

(** C1 (counterexample): three relevant changes, each less than 100ms after
    the previous one, yield two triggers, and the first one (at 100ms) is
    earlier than the last change of the burst (at 180ms). *)
Lemma C1_burst_two_triggers :
  all_relevant burst3 /\ burst (map ev_time burst3) /\
  watch_changes burst3 = [100; 280] /\ 100 < 180.
Proof.
  split; [repeat constructor|].
  split; [simpl; unfold debounce_ms; lia|].
  split; [reflexivity|lia].
Qed.

(** C1 (amended): a burst of relevant changes that all arrive less than
    100ms after its first change, the stream being idle before it, yields
    exactly one trigger, at the deadline of the timer armed by the first
    change, which is later than every change of the burst. *)
Theorem C1_burst_within_window (e0 : ChangeEvent) (rest : list ChangeEvent) :
  all_relevant (e0 :: rest) ->
  Forall (fun e => ev_time e0 <= ev_time e < ev_time e0 + debounce_ms) rest ->
  watch_changes (e0 :: rest) = [ev_time e0 + debounce_ms] /\
  Forall (fun e => ev_time e < ev_time e0 + debounce_ms) (e0 :: rest).
Proof.
  intros Hrel Hwin. unfold watch_changes, debounce.
  rewrite (filter_all_relevant _ Hrel). simpl.
  rewrite debounce_drain.
  - split; [reflexivity|]. constructor; [unfold debounce_ms; lia|].
    eapply Forall_impl; [|exact Hwin]. simpl; intros e He; lia.
  - rewrite Forall_map. eapply Forall_impl; [|exact Hwin].
    simpl; intros e He; lia.
Qed.

Lemma C1_burst_within_window_witness :
  watch_changes (firstn 2 burst3) = [100].
Proof.
  exact (proj1 (C1_burst_within_window
                  {| ev_path := "crate/src/main.rs"; ev_time := 0 |}
                  [ {| ev_path := "crate/src/main.rs"; ev_time := 90 |} ]
                  ltac:(repeat constructor)
                  ltac:(repeat constructor; simpl; unfold debounce_ms; lia))).
Defined.

(** C2: relevant changes that all fall in one window shorter than the
    100ms interval yield exactly one trigger; relevant changes each spaced
    strictly farther apart than the interval yield one trigger each. *)
Theorem C2_debounce_counts (near far : list ChangeEvent) (a : Z) :
  near <> [] -> all_relevant near ->
  Forall (fun e => a <= ev_time e < a + debounce_ms) near ->
  all_relevant far -> spaced_apart (map ev_time far) ->
  List.length (watch_changes near) = 1%nat /\
  List.length (watch_changes far) = List.length far.
Proof.
  intros Hne Hrn Hwin Hrf Hsp. split.
  - destruct near as [|e0 rest]; [congruence|].
    unfold watch_changes, debounce.
    rewrite (filter_all_relevant _ Hrn). simpl.
    inversion Hwin as [|? ? H0 Hrest]; subst.
    rewrite debounce_drain; [reflexivity|].
    rewrite Forall_map. eapply Forall_impl; [|exact Hrest].
    simpl; intros e He; lia.
  - unfold watch_changes, debounce.
    rewrite (filter_all_relevant _ Hrf).
    destruct far as [|e0 rest]; [reflexivity|].
    rewrite <- (length_map ev_time (e0 :: rest)).
    change (map ev_time (e0 :: rest)) with (ev_time e0 :: map ev_time rest) in *.
    remember (map ev_time rest) as ts eqn:Ets; clear Ets.
    cbn [fold_left debounce_step].
    rewrite (debounce_spaced _ _ _ Hsp), app_nil_l, length_map. reflexivity.
Qed.

Lemma C2_debounce_counts_witness :
  List.length (watch_changes (firstn 2 burst3)) = 1%nat /\
  List.length (watch_changes [ {| ev_path := "src/a.rs"; ev_time := 0 |};
                          {| ev_path := "src/b.rs"; ev_time := 150 |};
                          {| ev_path := "src/a.rs"; ev_time := 400 |} ]) = 3%nat.
Proof.
  apply (C2_debounce_counts (firstn 2 burst3)
           [ {| ev_path := "src/a.rs"; ev_time := 0 |};
             {| ev_path := "src/b.rs"; ev_time := 150 |};
             {| ev_path := "src/a.rs"; ev_time := 400 |} ] 0).
  - discriminate.
  - repeat constructor.
  - repeat constructor; simpl; unfold debounce_ms; lia.
  - repeat constructor.
  - simpl; unfold debounce_ms; lia.
Defined.

End WatchProofs.

(* ================================================================= *)
(** ** Further properties of the change watcher *)

Module WatchFacts.
Import Watch.
Open Scope Z_scope.

(** Consecutive elements at least [g] apart, in increasing order. *)
Fixpoint gaps_at_least (g : Z) (ts : list Z) : Prop :=
  match ts with
  | t1 :: ((t2 :: _) as rest) => t1 + g <= t2 /\ gaps_at_least g rest
  | _ => True
  end.

(** The state [st] of the debounce fold has a trigger in [(t, t+100]],
    emitted or armed. *)
Definition covered (t : Z) (st : option Z * list Z) : Prop :=
  (exists d, In d (snd st) /\ t < d <= t + debounce_ms) \/
  (exists dl, fst st = Some dl /\ t < dl <= t + debounce_ms).

Lemma debounce_armed ts dl out :
  exists dl' out', fold_left debounce_step ts (Some dl, out) = (Some dl', out').
Proof.
  revert dl out; induction ts as [|t ts IH]; intros dl out; simpl; [eauto|].
  destruct (t <? dl); apply IH.
Qed.

Definition st_count (st : option Z * list Z) : nat :=
  (List.length (snd st) + match fst st with Some _ => 1 | None => 0 end)%nat.

Lemma debounce_count ts st :
  (st_count (fold_left debounce_step ts st) <= st_count st + List.length ts)%nat.
Proof.
  revert st; induction ts as [|t ts IH]; intros [o out]; simpl; [lia|].
  eapply Nat.le_trans; [apply IH|].
  destruct o as [dl|]; unfold st_count; simpl; [destruct (t <? dl)|];
    simpl; rewrite ?length_app; simpl; lia.
Qed.

Lemma debounce_from ts st all :
  (forall d, In d (snd st) \/ fst st = Some d -> In (d - debounce_ms) all) ->
  (forall t, In t ts -> In t all) ->
  forall d, In d (snd (fold_left debounce_step ts st)) \/
            fst (fold_left debounce_step ts st) = Some d ->
            In (d - debounce_ms) all.
Proof.
  revert st; induction ts as [|t ts IH]; intros [o out] Hst Hts; simpl; [exact Hst|].
  apply IH; [|intros x Hx; apply Hts; right; exact Hx].
  assert (Ht : In (t + debounce_ms - debounce_ms) all)
    by (replace (t + debounce_ms - debounce_ms) with t by lia; apply Hts; left; reflexivity).
  destruct o as [dl|]; simpl.
  - destruct (t <? dl); simpl.
    + exact Hst.
    + intros d [Hd|Hd].
      * apply in_app_or in Hd as [Hd|[<-|[]]]; apply Hst; simpl; auto.
      * injection Hd as <-. exact Ht.
  - intros d [Hd|Hd]; [apply Hst; simpl; auto|injection Hd as <-; exact Ht].
Qed.

Lemma covered_step t t' st : covered t st -> covered t (debounce_step st t').
Proof.
  destruct st as [o out]. unfold covered; simpl.
  intros [[d [Hd Hr]]|[dl [Hdl Hr]]].
  - left. exists d. destruct o as [dl|]; simpl; [destruct (t' <? dl)|]; simpl;
      split; auto; apply in_or_app; auto.
  - subst o. destruct (t' <? dl); simpl.
    + right; eauto.
    + left. exists dl. split; [apply in_or_app; simpl; auto|exact Hr].
Qed.

Lemma covered_fold t ts st : covered t st -> covered t (fold_left debounce_step ts st).
Proof.
  revert st; induction ts as [|t' ts IH]; intros st H; simpl; [exact H|].
  apply IH, covered_step, H.
Qed.

Lemma debounce_latency ts st P :
  Sorted Z.le ts ->
  (forall dl, fst st = Some dl -> forall t, In t ts -> dl - debounce_ms <= t) ->
  (forall t, In t P -> covered t st) ->
  forall t, In t (P ++ ts) -> covered t (fold_left debounce_step ts st).
Proof.
  revert st P; induction ts as [|t ts IH]; intros [o out] P Hs Hdl HP x Hx; cbn [fold_left].
  - rewrite app_nil_r in Hx. auto.
  - apply Sorted_inv in Hs as [Hs Hhd].
    assert (Hge : Forall (Z.le t) ts).
    { apply Sorted_extends; [intros a b c; lia|constructor; assumption]. }
    rewrite Forall_forall in Hge.
    apply (IH _ (P ++ [t])); [exact Hs| | |rewrite <- app_assoc; exact Hx].
    + destruct o as [dl|]; simpl; [destruct (t <? dl)|]; simpl; intros dl' Hd y Hy;
        injection Hd as <-; [apply (Hdl dl eq_refl); simpl; auto|apply Hge in Hy; lia|
                             apply Hge in Hy; lia].
    + intros y Hy. apply in_app_or in Hy as [Hy|[<-|[]]]; [apply covered_step; auto|].
      unfold covered. destruct o as [dl|]; simpl.
      * destruct (Z.ltb_spec t dl) as [Hlt|Hge']; simpl.
        -- right. exists dl. split; [reflexivity|].
           pose proof (Hdl dl eq_refl t (or_introl eq_refl)). lia.
        -- right. exists (t + debounce_ms). split; [reflexivity|unfold debounce_ms; lia].
      * right. exists (t + debounce_ms). split; [reflexivity|unfold debounce_ms; lia].
Qed.

Lemma gaps_snoc g l x y :
  gaps_at_least g (l ++ [x]) -> x + g <= y -> gaps_at_least g (l ++ [x; y]).
Proof.
  induction l as [|a [|b l] IH]; simpl; intros H Hxy; [auto| |].
  - destruct H as [H _]. auto.
  - destruct H as [H1 H2]. split; [exact H1|]. apply IH; auto.
Qed.

Lemma debounce_gaps ts out dl :
  Sorted Z.le ts ->
  gaps_at_least debounce_ms (out ++ [dl]) ->
  (forall t, In t ts -> dl - debounce_ms <= t) ->
  gaps_at_least debounce_ms (debounce_flush (fold_left debounce_step ts (Some dl, out))).
Proof.
  revert out dl; induction ts as [|t ts IH]; intros out dl Hs Hg Hlo; simpl; [exact Hg|].
  apply Sorted_inv in Hs as [Hs Hhd].
  assert (Hge : Forall (Z.le t) ts).
  { apply Sorted_extends; [intros a b c; lia|constructor; assumption]. }
  rewrite Forall_forall in Hge.
  destruct (Z.ltb_spec t dl) as [Hlt|Hle].
  - apply IH; auto. intros y Hy. apply Hlo. right; exact Hy.
  - apply IH; [exact Hs| |].
    + rewrite <- app_assoc. simpl. apply gaps_snoc; [exact Hg|unfold debounce_ms in *; lia].
    + intros y Hy. apply Hge in Hy. lia.
Qed.

(** The relevant paths of a list of reported events. *)
Definition relevant_events (evs : list ChangeEvent) : list ChangeEvent :=
  filter (fun e => relevant (ev_path e)) evs.

(** Inserting an irrelevant path anywhere in the reported events changes
    nothing in the triggers. *)
Theorem watch_changes_ignores_irrelevant evs1 e evs2 :
  relevant (ev_path e) = false ->
  watch_changes (evs1 ++ e :: evs2) = watch_changes (evs1 ++ evs2).
Proof.
  intros H. unfold watch_changes. rewrite !filter_app. simpl. rewrite H. reflexivity.
Qed.

Lemma watch_changes_ignores_irrelevant_witness :
  watch_changes [ {| ev_path := "src/a.rs"; ev_time := 0 |};
                  {| ev_path := "target/debug/app"; ev_time := 150 |};
                  {| ev_path := "src/b.rs"; ev_time := 300 |} ] =
  watch_changes [ {| ev_path := "src/a.rs"; ev_time := 0 |};
                  {| ev_path := "src/b.rs"; ev_time := 300 |} ].
Proof.
  exact (watch_changes_ignores_irrelevant [ {| ev_path := "src/a.rs"; ev_time := 0 |} ]
           {| ev_path := "target/debug/app"; ev_time := 150 |}
           [ {| ev_path := "src/b.rs"; ev_time := 300 |} ] eq_refl).
Defined.

(** The stream yields no trigger exactly when no relevant path is
    reported, and never more triggers than relevant paths. *)
Theorem watch_changes_count evs :
  (watch_changes evs = [] <-> relevant_events evs = []) /\
  (List.length (watch_changes evs) <= List.length (relevant_events evs))%nat.
Proof.
  unfold watch_changes, relevant_events, debounce.
  split.
  - destruct (filter (fun e => relevant (ev_path e)) evs) as [|e rest]; simpl;
      [split; reflexivity|].
    destruct (debounce_armed (map ev_time rest) (ev_time e + debounce_ms) []) as [dl [out ->]].
    unfold debounce_flush; simpl. split; intros H; [destruct out; discriminate H|discriminate H].
  - pose proof (debounce_count (map ev_time (filter (fun e => relevant (ev_path e)) evs))
                  (None, [])) as H.
    unfold st_count in H; simpl in H. rewrite length_map in H.
    unfold debounce_flush.
    destruct (fold_left debounce_step _ (None, [])) as [[dl|] out]; simpl in *;
      rewrite ?length_app; simpl; lia.
Qed.

(** Every trigger is stamped exactly 100ms after the time of a relevant
    reported path (the first path of its window). *)
Theorem watch_changes_trigger_times evs d :
  In d (watch_changes evs) ->
  exists e, In e evs /\ relevant (ev_path e) = true /\ d = ev_time e + debounce_ms.
Proof.
  intros Hd.
  assert (H : In (d - debounce_ms) (map ev_time (relevant_events evs))).
  { unfold watch_changes, debounce, debounce_flush in Hd.
    apply (debounce_from (map ev_time (relevant_events evs)) (None, []));
      [simpl; intros x [[]|Hx]; discriminate Hx|auto|].
    destruct (fold_left debounce_step _ (None, [])) as [[dl|] out]; simpl in *; auto.
    apply in_app_or in Hd as [Hd|[<-|[]]]; auto. }
  apply in_map_iff in H as [e [He Hin]]. unfold relevant_events in Hin.
  apply filter_In in Hin as [Hin Hr]. exists e. split; [exact Hin|]. split; [exact Hr|]. lia.
Qed.

Lemma watch_changes_trigger_times_witness :
  In 100 (watch_changes [ {| ev_path := "src/a.rs"; ev_time := 0 |};
                          {| ev_path := "target/x"; ev_time := 20 |} ]) /\
  exists e, In e [ {| ev_path := "src/a.rs"; ev_time := 0 |};
                   {| ev_path := "target/x"; ev_time := 20 |} ] /\
            relevant (ev_path e) = true /\ 100 = ev_time e + debounce_ms.
Proof.
  assert (H : In 100 (watch_changes [ {| ev_path := "src/a.rs"; ev_time := 0 |};
                                      {| ev_path := "target/x"; ev_time := 20 |} ]))
    by (vm_compute; auto).
  split; [exact H|]. exact (watch_changes_trigger_times _ 100 H).
Defined.

(** When the relevant paths are reported in time order, every one of them
    is followed by a trigger at most 100ms later. *)
Theorem watch_changes_latency evs e :
  Sorted Z.le (map ev_time (relevant_events evs)) ->
  In e evs -> relevant (ev_path e) = true ->
  exists d, In d (watch_changes evs) /\ ev_time e < d <= ev_time e + debounce_ms.
Proof.
  intros Hs Hin Hr.
  assert (Hc : covered (ev_time e)
                 (fold_left debounce_step (map ev_time (relevant_events evs)) (None, []))).
  { apply (debounce_latency _ _ []); [exact Hs|simpl; discriminate|simpl; tauto|].
    simpl. apply in_map. apply filter_In; auto. }
  unfold watch_changes, debounce, debounce_flush. fold (relevant_events evs).
  destruct Hc as [[d [Hd Hr']]|[dl [Hdl Hr']]].
  - exists d. split; [|exact Hr'].
    destruct (fold_left debounce_step _ (None, [])) as [[dl|] out]; simpl in *;
      [apply in_or_app; auto|exact Hd].
  - exists dl. split; [|exact Hr']. rewrite Hdl. apply in_or_app; simpl; auto.
Qed.

Lemma watch_changes_latency_witness :
  exists d, In d (watch_changes [ {| ev_path := "src/a.rs"; ev_time := 0 |};
                                  {| ev_path := "src/b.rs"; ev_time := 90 |};
                                  {| ev_path := "src/c.rs"; ev_time := 180 |} ]) /\
            180 < d <= 180 + debounce_ms.
Proof.
  apply (watch_changes_latency _ {| ev_path := "src/c.rs"; ev_time := 180 |}).
  - repeat constructor; cbv; discriminate.
  - simpl; auto.
  - reflexivity.
Defined.

(** When the relevant paths are reported in time order, the triggers come
    in increasing order, at least 100ms apart. *)
Theorem watch_changes_spacing evs :
  Sorted Z.le (map ev_time (relevant_events evs)) ->
  gaps_at_least debounce_ms (watch_changes evs).
Proof.
  intros Hs. unfold watch_changes, debounce. fold (relevant_events evs).
  destruct (map ev_time (relevant_events evs)) as [|t ts] eqn:E; simpl; [exact I|].
  apply Sorted_inv in Hs as [Hs Hhd].
  apply debounce_gaps; [exact Hs|simpl; exact I|].
  assert (Hge : Forall (Z.le t) ts).
  { apply Sorted_extends; [intros a b c; lia|constructor; assumption]. }
  rewrite Forall_forall in Hge. intros y Hy. apply Hge in Hy. lia.
Qed.

Lemma watch_changes_spacing_witness :
  gaps_at_least debounce_ms
    (watch_changes [ {| ev_path := "src/a.rs"; ev_time := 0 |};
                     {| ev_path := "src/b.rs"; ev_time := 90 |};
                     {| ev_path := "src/c.rs"; ev_time := 180 |} ]).
Proof.
  apply watch_changes_spacing. repeat constructor; cbv; discriminate.
Defined.

End WatchFacts.

(* ================================================================= *)
(** ** Proofs: the build pipeline, the supervisor and the loop *)

Module StackctlProofs.
Import Stackctl.
Open Scope list_scope.

(** A workspace at [/ws] whose processes all succeed. *)
Definition world_ok : World :=
  {| w_workspace := Some "/ws";
     w_bin_name := "app";
     w_listen := "127.0.0.1:3000";
     w_watch_ok := true;
     w_child := fun _ => Exits true;
     w_create := fun _ => true;
     w_relay_io := fun _ => ([ReadChunk 0], []);
     w_rand := fun _ => Some "r";
     w_target_dir := Some "/ws/target";
     w_files := fun p => String.eqb p "/ws/target/release/app";
     w_probe := fun _ => Ready;
     w_clock := fun n => Z.of_nat n;
     w_kill := fun _ => true;
     w_term_ok := true;
     w_mkdir := fun _ => true;
     w_json_ok := true;
     w_canon_err := None |}.

Definition st0 (changes : list Z) : St := mkSt [] 0 0 0 0 0 changes.

(** *** Effects appended by a computation *)

(** Every action [m] appends to the trace satisfies [P], whatever its
    result. *)
Definition emits {A} (P : Action -> Prop) (m : M A) : Prop :=
  forall s, exists seg, st_trace (snd (m s)) = st_trace s ++ seg /\ Forall P seg.

Create HintDb emits_db.

Lemma emits_ret {A} P (a : A) : emits P (ret a).
Proof. intros s; exists []; simpl; rewrite app_nil_r; auto. Qed.

Lemma emits_bail {A} P e : @emits A P (bail e).
Proof. intros s; exists []; simpl; rewrite app_nil_r; auto. Qed.

Lemma emits_pending {A} P : @emits A P pending.
Proof. intros s; exists []; simpl; rewrite app_nil_r; auto. Qed.

Lemma emits_tell P a : P a -> emits P (tell a).
Proof. intros Ha s; exists [a]; simpl; auto. Qed.

Lemma emits_bind {A B} P (m : M A) (f : A -> M B) :
  emits P m -> (forall a, emits P (f a)) -> emits P (bind m f).
Proof.
  intros Hm Hf s. unfold bind.
  destruct (Hm s) as [seg1 [E1 F1]].
  destruct (m s) as [[a|e|] s1] eqn:Em; simpl in *.
  - destruct (Hf a s1) as [seg2 [E2 F2]].
    exists (seg1 ++ seg2). rewrite E2, E1, app_assoc.
    split; [reflexivity|]. apply Forall_app; auto.
  - exists seg1; auto.
  - exists seg1; auto.
Qed.

Lemma emits_workspace_dir P w : emits P (workspace_dir w).
Proof.
  unfold workspace_dir; destruct (w_workspace w); [|destruct (w_canon_err w)];
    auto using emits_ret, emits_bail.
Qed.

Lemma emits_to_json P w l f : emits P (to_json w l f).
Proof. unfold to_json; destruct (w_json_ok w); auto using emits_ret, emits_bail. Qed.

Lemma emits_random_str P w : emits P (random_str w).
Proof.
  intros s; exists []; unfold random_str; destruct (w_rand w (st_rands s)); simpl;
    rewrite app_nil_r; auto.
Qed.

Lemma emits_now P w : emits P (now w).
Proof. intros s; exists []; simpl; rewrite app_nil_r; auto. Qed.

Lemma emits_wait P w c : emits P (wait w c).
Proof. unfold wait; destruct (w_child w (child_id c)); auto using emits_ret, emits_bail. Qed.

Lemma emits_parse_metadata P w : emits P (parse_metadata w).
Proof. unfold parse_metadata; destruct (w_target_dir w); auto using emits_ret, emits_bail. Qed.

Lemma emits_spawn P w p : (forall n, P (Spawned n p)) -> emits P (spawn w p).
Proof.
  intros Hp s. unfold spawn. destruct (w_child w (st_spawns s)); simpl.
  - exists []; rewrite app_nil_r; auto.
  - exists [Spawned (st_spawns s) p]; auto.
  - exists [Spawned (st_spawns s) p]; auto.
Qed.

Lemma emits_transfer P w t : (forall n, P (Relay n t)) -> emits P (transfer_to_file w t).
Proof.
  intros Hp s. unfold transfer_to_file. destruct (w_create w (st_creates s)); simpl.
  - exists [Relay (st_creates s) t]; auto.
  - exists []; rewrite app_nil_r; auto.
Qed.

Lemma emits_copy P w a b : P (CopyFile a b) -> emits P (copy w a b).
Proof.
  intros Hp. unfold copy. destruct (w_files w a); auto using emits_tell, emits_bail.
Qed.

(** An error-context wrapper [fun s => match m s with (Err _, s') => .. | r => r end]
    keeps the effects of [m]. *)
Lemma emits_context {A} P (m : M A) e :
  emits P m ->
  emits P (fun s => match m s with (Err _, s') => (Err e, s') | r => r end).
Proof.
  intros Hm s. destruct (Hm s) as [seg [E F]].
  destruct (m s) as [[a|e'|] s1]; simpl in *; eauto.
Qed.

Hint Resolve emits_ret emits_bail emits_pending emits_workspace_dir emits_random_str
     emits_now emits_wait emits_parse_metadata : emits_db.

(** Unfolds one layer of the program and splits it into primitive steps. *)
Ltac emits_step :=
  match goal with
  | |- emits _ (bind _ _) => apply emits_bind; [|intros ?]
  | |- emits _ (tell _) => apply emits_tell
  | |- emits _ (spawn _ _) => apply emits_spawn; intros ?
  | |- emits _ (transfer_to_file _ _) => apply emits_transfer; intros ?
  | |- emits _ (copy _ _ _) => apply emits_copy
  | |- emits _ (fun _ => _) => apply emits_context
  | |- emits _ (if ?b then _ else _) => destruct b
  | |- emits _ (match ?x with _ => _ end) => destruct x
  | |- emits _ _ => solve [eauto with emits_db]
  end.

(** *** Running a computation to a successful result *)

Lemma bind_ok_inv {A B} (m : M A) (f : A -> M B) s b s' :
  bind m f s = (Ok b, s') ->
  exists a s1, m s = (Ok a, s1) /\ f a s1 = (Ok b, s').
Proof.
  unfold bind. destruct (m s) as [[a|e|] s1]; intros H; try discriminate; eauto.
Qed.

Lemma ret_ok_inv {A} (a b : A) s s' : ret a s = (Ok b, s') -> a = b /\ s = s'.
Proof. unfold ret; intros H; injection H; auto. Qed.

Lemma parse_metadata_ok_inv w s td s' :
  parse_metadata w s = (Ok td, s') -> w_target_dir w = Some td /\ s = s'.
Proof.
  unfold parse_metadata, ret, bail. destruct (w_target_dir w); intros H;
    injection H; intros; subst; auto; discriminate.
Qed.

Lemma copy_ok_inv w a b s u s' :
  copy w a b s = (Ok u, s') -> s' = tell_st (CopyFile a b) s.
Proof.
  unfold copy, tell, bail. destruct (w_files w a); intros H; injection H; auto.
  discriminate.
Qed.

(** Peels the successful binds of hypothesis [H]. *)
Ltac peel H :=
  repeat (cbv beta zeta in H;
          match type of H with
          | bind _ _ _ = (Ok _, _) =>
              let a := fresh "a" in let s := fresh "s" in let Hm := fresh "Hm" in
              apply bind_ok_inv in H; destruct H as (a & s & Hm & H)
          | (if ?b then _ else _) _ = (Ok _, _) =>
              let Eb := fresh "Eb" in destruct b eqn:Eb; try (unfold bail in H; discriminate H)
          end).

(** *** Spawned commands in serve mode *)

Ltac unfold_build :=
  unfold build_backend, build_frontend, backend_build_dir, frontend_build_dir,
    backend_data_dir, frontend_data_dir, build_dir, data_dir, create_dir_all,
    relay_output, retry_on_failure, backend_proc, frontend_proc, metadata_proc in *.

(** The primitive steps, down to the state transformers. *)
Ltac unfold_prims :=
  unfold parse_metadata, copy, transfer_to_file, spawn, wait, random_str,
    workspace_dir, inherit_output, bind, ret, bail, tell in *.

Definition serve_mode_args (bin : string) (a : Action) : Prop :=
  match a with
  | Spawned _ q => args q = ["build"; "--bin"; bin] \/
                   args q = ["metadata"; "--format-version=1"]
  | _ => True
  end.

Lemma build_backend_serve_args w o f :
  emits (serve_mode_args (w_bin_name w)) (build_backend w (Serve o) f).
Proof. unfold_build. cbn [is_release]. repeat emits_step; simpl; auto. Qed.

(** C10: whatever the mode, a successful [build_backend] ends by copying
    [<target_directory>/release/<bin_name>] to the returned path; in serve
    mode every [cargo] command it spawns is [cargo build --bin <bin_name>]
    (no [--release]) or [cargo metadata]. *)
Theorem C10_backend_artifact_from_release_dir w cmd f s p s' :
  build_backend w cmd f s = (Ok p, s') ->
  (exists td pre, w_target_dir w = Some td /\
     st_trace s' = pre ++ [CopyFile (join (join td "release") (w_bin_name w)) p]) /\
  (forall o, cmd = Serve o ->
     exists seg, st_trace s' = st_trace s ++ seg /\
                 Forall (serve_mode_args (w_bin_name w)) seg).
Proof.
  intros H. split.
  - unfold build_backend in H. peel H.
    apply parse_metadata_ok_inv in Hm8 as [Htd <-].
    apply copy_ok_inv in Hm9 as ->.
    apply ret_ok_inv in H as [<- <-].
    exists a8, (st_trace s8). split; [exact Htd|reflexivity].
  - intros o ->. destruct (build_backend_serve_args w o f s) as [seg [E F]].
    rewrite H in E. simpl in E. eauto.
Qed.

Definition serve_backend_run : Res string * St :=
  build_backend world_ok (Serve false) "/ws/.stackable/frontend/dev-builds/r" (st0 []).

Lemma C10_backend_artifact_from_release_dir_witness :
  (exists td pre, w_target_dir world_ok = Some td /\
     st_trace (snd serve_backend_run) =
     pre ++ [CopyFile (join (join td "release") "app")
                      "/ws/.stackable/backend/dev-builds/r/app"]) /\
  (forall o, Serve false = Serve o ->
     exists seg, st_trace (snd serve_backend_run) = st_trace (st0 []) ++ seg /\
                 Forall (serve_mode_args "app") seg).
Proof.
  apply (C10_backend_artifact_from_release_dir world_ok (Serve false)
           "/ws/.stackable/frontend/dev-builds/r" (st0 [])
           "/ws/.stackable/backend/dev-builds/r/app" (snd serve_backend_run)).
  vm_compute. reflexivity.
Defined.

(** *** One-shot builds *)

(** C9: a one-shot build without [--release] fails with a descriptive
    error before any effect: no directory is created, no process spawned,
    the state is left as it was. *)
Theorem C9_run_build_debug_rejected w cmd s :
  run_build w cmd false s =
  (Err "building distributable in debug mode is not yet supported!", s).
Proof. reflexivity. Qed.

(** *** Build escalation *)

(** The processes spawned along a trace, in order. *)
Fixpoint spawned (tr : list Action) : list Proc :=
  match tr with
  | [] => []
  | Spawned _ q :: tr' => q :: spawned tr'
  | _ :: tr' => spawned tr'
  end.

(** The processes a [spawn] whose outcome is [o] adds to the trace: none
    when spawning fails. *)
Definition spawned_if (o : ChildOutcome) (p : Proc) : list Proc :=
  match o with
  | SpawnFails => []
  | _ => [p]
  end.

(** What the escalation policy requires of one run of [build_frontend]
    from [s] whose quiet attempt [q] (spawn number [st_spawns s]) exits
    unsuccessfully: the retry is spawn number [S (st_spawns s)]. *)
Definition frontend_escalates (w : World) (cmd : Command) (s : St) : Prop :=
  let '(r, s') := build_frontend w cmd s in
  let retry := w_child w (S (st_spawns s)) in
  exists q seg, st_trace s' = st_trace s ++ seg /\
   (is_release cmd = true -> spawned seg = [q] /\ exists e, r = Err e) /\
   (is_release cmd = false ->
      spawned seg = q :: spawned_if retry (inherit_output q) /\
      r <> Pending /\
      ((exists d, r = Ok d) <-> retry = Exits true)).

(** The same for [build_backend]: after a successful retry it goes on with
    [cargo metadata] (spawn number [S (S (st_spawns s))]) and the copy of
    the binary, and succeeds exactly when the retry, [cargo metadata], the
    parse of its output and the copy all succeed. *)
Definition backend_escalates (w : World) (cmd : Command) (f : string) (s : St)
    (ws : string) : Prop :=
  let '(r, s') := build_backend w cmd f s in
  let retry := w_child w (S (st_spawns s)) in
  let meta := w_child w (S (S (st_spawns s))) in
  exists q seg, st_trace s' = st_trace s ++ seg /\
   (is_release cmd = true -> spawned seg = [q] /\ exists e, r = Err e) /\
   (is_release cmd = false ->
      spawned seg = q :: spawned_if retry (inherit_output q) ++
                    match retry with
                    | Exits true => spawned_if meta (metadata_proc ws)
                    | _ => []
                    end /\
      r <> Pending /\
      ((exists p, r = Ok p) <->
         retry = Exits true /\ meta = Exits true /\
         exists td, w_target_dir w = Some td /\
                    w_files w (join (join td "release") (w_bin_name w)) = true)).

(** Rewrites hypothesis [E] with the facts about the environment in the
    context. *)
Ltac rw_env E :=
  repeat match goal with
         | H : w_workspace _ = _ |- _ => rewrite H in E
         | H : forall p, w_mkdir _ p = _ |- _ => rewrite H in E
         | H : w_create _ _ = _ |- _ => rewrite H in E
         | H : w_child _ _ = _ |- _ => rewrite H in E
         | H : w_target_dir _ = _ |- _ => rewrite H in E
         | H : w_files _ _ = _ |- _ => rewrite H in E
         | H : forall k, exists r, w_rand ?w k = Some r |- _ =>
             match type of E with
             | context [w_rand w ?k] =>
                 let rr := fresh "rr" in let Hk := fresh "Hk" in
                 destruct (H k) as [rr Hk]; rewrite Hk in E
             end
         end.

(** Simplifies hypothesis [E], an equation on the run of a build. *)
Ltac run_build_in E := repeat (cbn -[join String.append] in E; rw_env E).

Ltac finish_escalation E :=
  injection E as <- <-;
  (eexists; split; [cbn; rewrite <- ?app_assoc; reflexivity|]);
  cbn -[join String.append];
  repeat (split || intro); try discriminate;
  repeat match goal with
         | H : exists _, _ |- _ => destruct H
         | H : _ /\ _ |- _ => destruct H
         | H : Some _ = Some _ |- _ => injection H as <-
         end;
  try congruence; eauto.

Lemma build_frontend_escalation w cmd s ws :
  w_workspace w = Some ws -> (forall p, w_mkdir w p = true) ->
  (forall k, exists r, w_rand w k = Some r) ->
  w_create w (st_creates s) = true -> w_create w (S (st_creates s)) = true ->
  w_child w (st_spawns s) = Exits false ->
  frontend_escalates w cmd s.
Proof.
  intros Hws Hmk Hr Hc0 Hc1 Hq. unfold frontend_escalates.
  destruct (build_frontend w cmd s) as [r s'] eqn:E.
  destruct cmd as [o|rel]; unfold_build; unfold_prims; run_build_in E;
    match type of E with context [Spawned (st_spawns s) ?p] => exists p end.
  - destruct (w_child w (S (st_spawns s))) as [| |[]] eqn:Hrt;
      run_build_in E;
      finish_escalation E.
  - finish_escalation E.
Qed.

Lemma build_backend_escalation w cmd f s ws :
  w_workspace w = Some ws -> (forall p, w_mkdir w p = true) ->
  (forall k, exists r, w_rand w k = Some r) ->
  w_create w (st_creates s) = true -> w_create w (S (st_creates s)) = true ->
  w_child w (st_spawns s) = Exits false ->
  backend_escalates w cmd f s ws.
Proof.
  intros Hws Hmk Hr Hc0 Hc1 Hq. unfold backend_escalates.
  destruct (build_backend w cmd f s) as [r s'] eqn:E.
  destruct cmd as [o|rel]; unfold_build; unfold_prims; run_build_in E;
    match type of E with context [Spawned (st_spawns s) ?p] => exists p end.
  - destruct (w_child w (S (st_spawns s))) as [| |[]] eqn:Hrt;
      run_build_in E.
    3: destruct (w_child w (S (S (st_spawns s)))) as [| |[]] eqn:Hm;
        run_build_in E.
    5: destruct (w_target_dir w) as [td|] eqn:Ht; run_build_in E;
        [destruct (w_files w (join (join td "release") (w_bin_name w))) eqn:Hf;
         run_build_in E|].
    all: finish_escalation E.
  - finish_escalation E.
Qed.

(** A serve-mode workspace whose first process exits unsuccessfully while
    every later one succeeds, and without a [target/release] binary. *)
Definition world_flaky : World :=
  {| w_workspace := Some "/ws";
     w_bin_name := "app";
     w_listen := "127.0.0.1:3000";
     w_watch_ok := true;
     w_child := fun n => match n with O => Exits false | _ => Exits true end;
     w_create := fun _ => true;
     w_relay_io := fun _ => ([ReadChunk 0], []);
     w_rand := fun _ => Some "r";
     w_target_dir := Some "/ws/target";
     w_files := fun _ => false;
     w_probe := fun _ => Ready;
     w_clock := fun n => Z.of_nat n;
     w_kill := fun _ => true;
     w_term_ok := true;
     w_mkdir := fun _ => true;
     w_json_ok := true;
     w_canon_err := None |}.

(** C3 (counterexample): in serve mode the quiet [cargo build] fails, the
    console retry succeeds, and [build_backend] still returns an error,
    from the copy of the binary. *)
Lemma C3_retry_success_backend_error :
  w_child world_flaky 0 = Exits false /\ w_child world_flaky 1 = Exits true /\
  List.length (spawned (st_trace (snd (build_backend world_flaky (Serve false)
                                        "/ws/fe" (st0 []))))) = 3%nat /\
  fst (build_backend world_flaky (Serve false) "/ws/fe" (st0 [])) =
  Err "failed to copy binary".
Proof. vm_compute. repeat split. Qed.

(** C3 (amended): when the quiet attempt of [build_frontend] or
    [build_backend] exits unsuccessfully (the directories being creatable
    and random names available), a release build fails at once having
    spawned nothing more; a non-release build spawns exactly one retry, the
    same command with its output on the console, and fails if that retry
    does not exit successfully.  When the retry succeeds, [build_frontend]
    succeeds, and [build_backend] goes on with [cargo metadata] and the copy
    of the binary, succeeding exactly when [cargo metadata] exits
    successfully, its output names a target directory and the release
    binary is found there. *)
Theorem C3_build_escalation w cmd f s ws :
  w_workspace w = Some ws -> (forall p, w_mkdir w p = true) ->
  (forall k, exists r, w_rand w k = Some r) ->
  w_create w (st_creates s) = true -> w_create w (S (st_creates s)) = true ->
  w_child w (st_spawns s) = Exits false ->
  frontend_escalates w cmd s /\ backend_escalates w cmd f s ws.
Proof.
  intros. split.
  - eapply build_frontend_escalation; eauto.
  - eapply build_backend_escalation; eauto.
Qed.

Lemma C3_build_escalation_witness :
  frontend_escalates world_flaky (Serve false) (st0 []) /\
  backend_escalates world_flaky (Serve false) "/ws/fe" (st0 []) "/ws".
Proof.
  apply (C3_build_escalation world_flaky (Serve false) "/ws/fe" (st0 []) "/ws").
  - reflexivity.
  - intros p. reflexivity.
  - intros k. exists "r". reflexivity.
  - reflexivity.
  - reflexivity.
  - reflexivity.
Defined.

(** *** The log relay *)






(** *** Live server handles *)

(** A server child is the [cargo run] of [serve_once]. *)
Definition is_server (p : Proc) : bool :=
  String.eqb (program p) "cargo" &&
  match args p with
  | a :: _ => String.eqb a "run"
  | [] => false
  end.

(** The live server handles after one more action. *)
Definition live_step (l : list nat) (a : Action) : list nat :=
  match a with
  | Spawned n p => if is_server p then n :: l else l
  | Killed n | Dropped n => remove Nat.eq_dec n l
  | _ => l
  end.

Definition live_after (l : list nat) (tr : list Action) : list nat :=
  fold_left live_step tr l.

(** At every point of [tr], run from the live handles [l], at most one
    server handle is live. *)
Fixpoint one_live (l : list nat) (tr : list Action) : Prop :=
  (List.length l <= 1)%nat /\
  match tr with
  | [] => True
  | a :: tr' => one_live (live_step l a) tr'
  end.

(** Actions that neither create nor end a server handle. *)
Definition neutral (a : Action) : Prop :=
  match a with
  | Spawned _ p => is_server p = false
  | Killed _ | Dropped _ | KillFailed _ => False
  | _ => True
  end.

Lemma one_live_app l a b :
  one_live l (a ++ b) <-> one_live l a /\ one_live (live_after l a) b.
Proof.
  revert l; induction a as [|x a IH]; intros l; simpl.
  - split; [intros H; split; [split; [destruct b; apply H|exact I]|exact H]|].
    intros [_ H]; exact H.
  - rewrite IH. tauto.
Qed.

Lemma one_live_length l tr : one_live l tr -> (List.length (live_after l tr) <= 1)%nat.
Proof.
  revert l; induction tr as [|a tr IH]; intros l H; simpl in *; [apply H|].
  apply IH, H.
Qed.

Lemma neutral_seg l seg :
  Forall neutral seg -> (List.length l <= 1)%nat ->
  one_live l seg /\ live_after l seg = l.
Proof.
  intros F; revert l; induction F as [|a seg Ha F IH]; intros l Hl; simpl; [auto|].
  assert (live_step l a = l) as ->.
  { destruct a; simpl in *; try contradiction; try reflexivity.
    rewrite Ha; reflexivity. }
  destruct (IH l Hl); auto.
Qed.

(** [m], run from a state whose live handles satisfy [P], keeps at most
    one handle live throughout and ends with its result and live handles
    satisfying [Q]. *)
Definition triple {A} (P : list nat -> Prop) (m : M A)
    (Q : Res A -> list nat -> Prop) : Prop :=
  forall s l, P l ->
  exists seg, st_trace (snd (m s)) = st_trace s ++ seg /\
              one_live l seg /\ Q (fst (m s)) (live_after l seg).

Lemma triple_bind {A B} P (m : M A) (f : A -> M B) Q R :
  triple P m Q ->
  (forall a, triple (Q (Ok a)) (f a) R) ->
  (forall e l, Q (Err e) l -> R (Err e) l) ->
  (forall l, Q Pending l -> R Pending l) ->
  triple P (bind m f) R.
Proof.
  intros Hm Hf He Hp s l Hl. unfold bind.
  destruct (Hm s l Hl) as [seg1 [E1 [O1 Q1]]].
  destruct (m s) as [[a|e|] s1]; simpl in *.
  - destruct (Hf a s1 _ Q1) as [seg2 [E2 [O2 Q2]]].
    exists (seg1 ++ seg2). rewrite E2, E1, app_assoc. split; [reflexivity|].
    split; [apply one_live_app; auto|].
    unfold live_after in *; rewrite fold_left_app; exact Q2.
  - exists seg1; auto.
  - exists seg1; auto.
Qed.

Lemma triple_ret {A} P (a : A) Q :
  (forall l, P l -> (List.length l <= 1)%nat /\ Q (Ok a) l) -> triple P (ret a) Q.
Proof.
  intros H s l Hl. exists []. simpl. rewrite app_nil_r.
  destruct (H l Hl). auto.
Qed.

Lemma triple_conseq {A} P P' (m : M A) Q Q' :
  triple P' m Q' -> (forall l, P l -> P' l) -> (forall r l, Q' r l -> Q r l) ->
  triple P m Q.
Proof.
  intros H HP HQ s l Hl. destruct (H s l (HP l Hl)) as [seg [E [O Q1]]]. eauto.
Qed.

(** A computation whose actions are all neutral leaves the live handles as
    they are. *)
Lemma triple_neutral {A} (m : M A) L :
  emits neutral m -> (List.length L <= 1)%nat ->
  triple (eq L) m (fun _ l => l = L).
Proof.
  intros Hm HL s l Hl. subst l. destruct (Hm s) as [seg [E F]].
  destruct (neutral_seg L seg F HL). eauto.
Qed.

Lemma build_frontend_neutral w cmd : emits neutral (build_frontend w cmd).
Proof. unfold_build. destruct cmd; cbn [is_release]; repeat emits_step; simpl; auto. Qed.

Lemma build_backend_neutral w cmd f : emits neutral (build_backend w cmd f).
Proof. unfold_build. destruct cmd; cbn [is_release]; repeat emits_step; simpl; auto. Qed.

Lemma remove_self n : remove Nat.eq_dec n [n] = [].
Proof. simpl. destruct (Nat.eq_dec n n); congruence. Qed.

Lemma wait_ready_neutral w fuel c addr : emits neutral (wait_ready w fuel c addr).
Proof.
  revert c addr; induction fuel as [|fuel IH]; intros c addr s; simpl.
  - exists []; rewrite app_nil_r; auto.
  - destruct (w_probe w (st_probes s)); simpl.
    + exists []; rewrite app_nil_r; auto.
    + eexists; split; [reflexivity|]. repeat constructor.
    + destruct (IH c addr (tell_st (Probe (child_id c) (st_probes s) addr) (next_probe s)))
        as [seg [E F]].
      rewrite E. exists (Probe (child_id c) (st_probes s) addr :: seg). simpl.
      rewrite <- app_assoc. split; [reflexivity|]. constructor; simpl; auto.
Qed.

(** Dropping a handle on the error path only ends it. *)
Lemma triple_drop_on_err {A} P (m : M A) Q c :
  triple P m Q ->
  triple P (drop_on_err c m)
    (fun r l => match r with
                | Err e => exists l0, Q (Err e) l0 /\ l = remove Nat.eq_dec (child_id c) l0
                | _ => Q r l
                end).
Proof.
  intros H s l Hl. destruct (H s l Hl) as [seg [E [O Q1]]].
  unfold drop_on_err.
  destruct (m s) as [[a|e|] s1]; simpl in *; eauto.
  exists (seg ++ [Dropped (child_id c)]). rewrite E, app_assoc.
  split; [reflexivity|]. split.
  - apply one_live_app. split; [exact O|]. simpl.
    pose proof (one_live_length _ _ O) as Hle.
    repeat split; [exact Hle|].
    eapply Nat.le_trans; [apply remove_length_le|exact Hle].
  - unfold live_after; rewrite fold_left_app. simpl. eauto.
Qed.

Lemma triple_spawn_server w ws meta :
  triple (eq []) (spawn w (server_cmd w ws meta))
    (fun r l => match r with Ok c => l = [child_id c] | _ => l = [] end).
Proof.
  intros s l <-. unfold spawn.
  destruct (w_child w (st_spawns s)); simpl.
  - exists []; rewrite app_nil_r; simpl; auto.
  - eexists; split; [reflexivity|]. simpl; auto.
  - eexists; split; [reflexivity|]. simpl; auto.
Qed.

Lemma triple_neutral_bind {A B} (m : M A) (f : A -> M B) L R :
  emits neutral m -> (List.length L <= 1)%nat ->
  (forall a, triple (eq L) (f a) R) ->
  (forall e, R (Err e) L) -> R Pending L ->
  triple (eq L) (bind m f) R.
Proof.
  intros Hm HL Hf He Hp.
  apply triple_bind with (Q := fun _ l => l = L).
  - apply triple_neutral; assumption.
  - intros a. eapply triple_conseq; [apply (Hf a)|intros l ->; reflexivity|auto].
  - intros e l ->; auto.
  - intros l ->; auto.
Qed.

(** [serve_once] creates at most one handle: the one it returns. *)
Lemma triple_serve_once w cmd fuel :
  triple (eq []) (serve_once w cmd fuel)
    (fun r l => match r with
                | Ok c => l = [child_id c]
                | Err _ => l = []
                | Pending => True
                end).
Proof.
  unfold serve_once.
  apply triple_neutral_bind; [apply emits_workspace_dir|simpl; lia| |auto|auto]; intros ws.
  apply triple_neutral_bind; [apply build_frontend_neutral|simpl; lia| |auto|auto]; intros fdir.
  apply triple_neutral_bind; [apply build_backend_neutral|simpl; lia| |auto|auto]; intros bin.
  apply triple_neutral_bind;
    [apply emits_to_json|simpl; lia| |auto|auto]; intros meta.
  eapply triple_bind;
    [apply triple_spawn_server|intros c|intros e l H; exact H|intros; exact I].
  eapply triple_bind;
    [apply triple_drop_on_err;
     eapply triple_conseq;
       [apply (triple_neutral _ [child_id c]); [apply wait_ready_neutral|simpl; lia]
       |intros l H; symmetry; exact H|intros r l H; exact H]
    |intros u|simpl|intros; exact I].
  - apply triple_ret. intros l H; subst; simpl; auto.
  - intros e l [l0 [-> ->]]. apply remove_self.
Qed.

Lemma emits_weaken {A} (P Q : Action -> Prop) (m : M A) :
  (forall a, P a -> Q a) -> emits P m -> emits Q m.
Proof.
  intros HPQ Hm s. destruct (Hm s) as [seg [E F]].
  exists seg; split; [exact E|]. eapply Forall_impl; eauto.
Qed.

Lemma emits_drop_on_err {A} P (m : M A) c :
  P (Dropped (child_id c)) -> emits P m -> emits P (drop_on_err c m).
Proof.
  intros Hd Hm s. destruct (Hm s) as [seg [E F]]. unfold drop_on_err.
  destruct (m s) as [[a|e|] s1]; simpl in *; eauto.
  exists (seg ++ [Dropped (child_id c)]). rewrite E, app_assoc.
  split; [reflexivity|]. apply Forall_app; auto.
Qed.

Lemma emits_wait_for_change P start : emits P (wait_for_change start).
Proof.
  intros s. unfold wait_for_change.
  destruct (skip_stale start (st_changes s)); exists []; simpl; rewrite app_nil_r; auto.
Qed.

Lemma report_started_neutral w start addr : emits neutral (report_started w start addr).
Proof. unfold report_started. repeat emits_step; simpl; auto. Qed.

Lemma open_browser_neutral w addr : emits neutral (open_browser w addr).
Proof. unfold open_browser. repeat emits_step; simpl; auto. Qed.

Lemma browser_step_neutral w open first_run addr :
  emits neutral (browser_step w open first_run addr).
Proof.
  unfold browser_step. destruct (open && first_run);
    [apply open_browser_neutral|apply emits_ret].
Qed.

Definition opt_ids (o : option Child) : list nat :=
  match o with Some c => [child_id c] | None => [] end.

(** An iteration's build-and-serve step ends with the handle it holds as
    the only live one. *)
Lemma triple_serve_iteration w cmd fuel start addr :
  triple (eq []) (serve_iteration w cmd fuel start addr)
    (fun r l => match r with Ok o => l = opt_ids o | _ => True end).
Proof.
  intros s l <-. unfold serve_iteration.
  destruct (triple_serve_once w cmd fuel s [] eq_refl) as [seg1 [E1 [O1 Q1]]].
  destruct (serve_once w cmd fuel s) as [[c|e|] s1]; simpl in *.
  - assert (T : triple (eq [child_id c])
                  (drop_on_err c (_ <- report_started w start addr ;; ret (Some c)))
                  (fun r l => match r with Ok o => l = opt_ids o | _ => True end)).
    { eapply triple_conseq;
        [apply triple_drop_on_err;
         apply (triple_neutral_bind _ _ [child_id c]
                  (fun r l => match r with Ok o => l = opt_ids o | _ => True end));
           [apply report_started_neutral|simpl; lia| |intros; exact I|exact I];
         intros u; apply triple_ret; intros l <-; simpl; split; [lia|reflexivity]
        |intros l H; exact H|].
      intros [o|e|] l H; simpl in *; auto. }
    destruct (T s1 _ (eq_sym Q1)) as [seg2 [E2 [O2 Q2]]].
    exists (seg1 ++ seg2). rewrite E2, E1, app_assoc. split; [reflexivity|].
    split; [apply one_live_app; split; assumption|].
    unfold live_after in *; rewrite fold_left_app; exact Q2.
  - subst. unfold bind, log, tell, ret; simpl.
    exists (seg1 ++ [Logged ("failed to build development server: " ++ e)]).
    rewrite E1, app_assoc. split; [reflexivity|].
    split; [apply one_live_app; split; [exact O1|]; rewrite Q1; simpl; auto|].
    unfold live_after in *; rewrite fold_left_app, Q1; reflexivity.
  - exists seg1; auto.
Qed.

Lemma triple_dropped c :
  triple (eq [child_id c]) (tell (Dropped (child_id c))) (fun _ l => l = []).
Proof.
  intros s l <-. exists [Dropped (child_id c)]. simpl.
  split; [reflexivity|].
  destruct (Nat.eq_dec (child_id c) (child_id c)); [simpl; repeat split; auto|congruence].
Qed.

Lemma triple_kill w c :
  triple (eq [child_id c]) (kill w c)
    (fun r l => match r with Ok _ => l = [] | _ => True end).
Proof.
  intros s l <-. unfold kill. destruct (w_kill w (child_id c)); simpl.
  - exists [Killed (child_id c)]. simpl.
    destruct (Nat.eq_dec (child_id c) (child_id c)); [simpl; repeat split; auto|congruence].
  - exists [KillFailed (child_id c)]. simpl. auto.
Qed.

Lemma triple_wait_for_change start L :
  (List.length L <= 1)%nat -> triple (eq L) (wait_for_change start) (fun _ l => l = L).
Proof. intros HL. apply triple_neutral; [apply emits_wait_for_change|exact HL]. Qed.

(** The ['outer] loop keeps at most one server handle live. *)
Lemma triple_serve_loop w cmd fuel iters open first_run :
  triple (eq []) (serve_loop w cmd fuel iters open first_run)
    (fun r l => match r with Ok _ => l = [] | _ => True end).
Proof.
  revert first_run. induction iters as [|iters IH]; intros first_run.
  - intros s l <-. exists []. simpl. rewrite app_nil_r. auto.
  - simpl.
    apply triple_neutral_bind; [apply emits_now|simpl; lia| |intros; exact I|exact I].
    intros start.
    eapply triple_bind; [apply triple_serve_iteration|intros o|intros; exact I|intros; exact I].
    eapply triple_conseq with (P' := eq (opt_ids o));
      [|intros l H; symmetry; exact H|intros r l H; exact H].
    eapply triple_bind with
      (Q := fun r l => match r with Ok _ => l = opt_ids o | _ => True end);
      [|intros u|intros; exact I|intros; exact I].
    { destruct o as [c|]; simpl.
      - eapply triple_conseq;
          [apply triple_drop_on_err;
           apply (triple_neutral _ [child_id c]); [apply browser_step_neutral|simpl; lia]
          |intros l H; exact H|].
        intros [a|e|] l H; simpl; auto.
      - eapply triple_conseq;
          [apply (triple_neutral _ []); [apply browser_step_neutral|simpl; lia]
          |intros l H; exact H|].
        intros [a|e|] l H; simpl; auto. }
    eapply triple_conseq with (P' := eq (opt_ids o));
      [|intros l H; symmetry; exact H|intros r l H; exact H].
    eapply triple_bind;
      [apply triple_wait_for_change; destruct o; simpl; lia
      |intros changed|intros; exact I|intros; exact I].
    eapply triple_conseq with (P' := eq (opt_ids o));
      [|intros l H; symmetry; exact H|intros r l H; exact H].
    destruct changed; simpl.
    + eapply triple_bind;
        [|intros u'|intros; exact I|intros; exact I].
      { destruct o as [c|]; simpl.
        - apply triple_kill.
        - apply triple_ret. intros l <-; simpl; auto. }
      eapply triple_conseq; [apply (IH false)|intros l H; symmetry; exact H|auto].
    + destruct o as [c|]; simpl.
      * eapply triple_bind; [apply triple_dropped|intros u'|intros; exact I|intros; exact I].
        apply triple_ret. intros l ->; simpl; auto.
      * apply triple_ret. intros l <-; simpl; auto.
Qed.

Definition no_kf (a : Action) : Prop :=
  match a with KillFailed _ => False | _ => True end.

(** A failed kill is the last action of [m], which then fails with the
    error of the kill. *)
Definition kill_fatal {A} (m : M A) : Prop :=
  forall s, exists seg, st_trace (snd (m s)) = st_trace s ++ seg /\
    forall n, In (KillFailed n) seg ->
      fst (m s) = Err "failed to stop server" /\ exists pre, seg = pre ++ [KillFailed n].

Lemma kf_of_emits {A} (m : M A) : emits no_kf m -> kill_fatal m.
Proof.
  intros Hm s. destruct (Hm s) as [seg [E F]]. exists seg; split; [exact E|].
  intros n Hin. rewrite Forall_forall in F. destruct (F _ Hin).
Qed.

Lemma kf_bind {A B} (m : M A) (f : A -> M B) :
  kill_fatal m -> (forall a, kill_fatal (f a)) -> kill_fatal (bind m f).
Proof.
  intros Hm Hf s. unfold bind.
  destruct (Hm s) as [seg1 [E1 K1]].
  destruct (m s) as [[a|e|] s1]; simpl in *.
  - destruct (Hf a s1) as [seg2 [E2 K2]].
    exists (seg1 ++ seg2). rewrite E2, E1, app_assoc. split; [reflexivity|].
    intros n Hin. apply in_app_or in Hin as [Hin|Hin].
    + destruct (K1 n Hin) as [D _]; discriminate D.
    + destruct (K2 n Hin) as [D [pre ->]]. split; [exact D|].
      exists (seg1 ++ pre). apply app_assoc.
  - exists seg1. split; [exact E1|]. intros n Hin.
    destruct (K1 n Hin) as [D P]. injection D as ->. auto.
  - exists seg1. split; [exact E1|]. intros n Hin. destruct (K1 n Hin) as [D _]; discriminate D.
Qed.

Lemma kf_ret {A} (a : A) : kill_fatal (ret a).
Proof. apply kf_of_emits, emits_ret. Qed.

Lemma kf_kill w c : kill_fatal (kill w c).
Proof.
  intros s. unfold kill. destruct (w_kill w (child_id c)); simpl.
  - exists [Killed (child_id c)]. split; [reflexivity|]. intros n [D|[]]; discriminate D.
  - exists [KillFailed (child_id c)]. split; [reflexivity|].
    intros n [D|[]]. split; [reflexivity|]. exists []; rewrite D; reflexivity.
Qed.

Lemma neutral_no_kf a : neutral a -> no_kf a.
Proof. destruct a; simpl; tauto. Qed.

Lemma serve_once_no_kf w cmd fuel : emits no_kf (serve_once w cmd fuel).
Proof.
  unfold serve_once.
  apply emits_bind; [apply emits_workspace_dir|intros ws].
  apply emits_bind; [eapply emits_weaken; [apply neutral_no_kf|apply build_frontend_neutral]|intros f].
  apply emits_bind; [eapply emits_weaken; [apply neutral_no_kf|apply build_backend_neutral]|intros b].
  apply emits_bind; [apply emits_to_json|intros meta].
  apply emits_bind; [apply emits_spawn; simpl; auto|intros c].
  apply emits_bind; [|intros u; apply emits_ret].
  apply emits_drop_on_err; [simpl; auto|].
  eapply emits_weaken; [apply neutral_no_kf|apply wait_ready_neutral].
Qed.

Lemma serve_iteration_no_kf w cmd fuel start addr :
  emits no_kf (serve_iteration w cmd fuel start addr).
Proof.
  intros s. unfold serve_iteration.
  destruct (serve_once_no_kf w cmd fuel s) as [seg1 [E1 F1]].
  destruct (serve_once w cmd fuel s) as [[c|e|] s1]; simpl in *.
  - assert (H : emits no_kf (drop_on_err c (_ <- report_started w start addr ;; ret (Some c)))).
    { apply emits_drop_on_err; [simpl; auto|].
      apply emits_bind; [|intros; apply emits_ret].
      eapply emits_weaken; [apply neutral_no_kf|apply report_started_neutral]. }
    destruct (H s1) as [seg2 [E2 F2]].
    exists (seg1 ++ seg2). rewrite E2, E1, app_assoc. split; [reflexivity|].
    apply Forall_app; auto.
  - unfold bind, log, tell, ret; simpl.
    exists (seg1 ++ [Logged ("failed to build development server: " ++ e)]).
    rewrite E1, app_assoc. split; [reflexivity|].
    apply Forall_app; split; [exact F1|repeat constructor].
  - exists seg1; auto.
Qed.

Lemma kf_serve_loop w cmd fuel iters open first_run :
  kill_fatal (serve_loop w cmd fuel iters open first_run).
Proof.
  revert first_run. induction iters as [|iters IH]; intros first_run; simpl.
  - apply kf_of_emits, emits_pending.
  - apply kf_bind; [apply kf_of_emits, emits_now|intros start].
    apply kf_bind; [apply kf_of_emits, serve_iteration_no_kf|intros o].
    apply kf_bind.
    { apply kf_of_emits.
      destruct o as [c|]; simpl; [apply emits_drop_on_err; [simpl; auto|]|];
        (eapply emits_weaken; [apply neutral_no_kf|apply browser_step_neutral]). }
    intros u.
    apply kf_bind; [apply kf_of_emits, emits_wait_for_change|intros changed].
    destruct changed; simpl.
    + apply kf_bind; [|intros; apply IH].
      destruct o as [c|]; simpl; [apply kf_kill|apply kf_ret].
    + destruct o as [c|]; simpl; [|apply kf_ret].
      apply kf_bind; [apply kf_of_emits, emits_tell; simpl; auto|intros; apply kf_ret].
Qed.

Lemma one_live_spawn pre n p post :
  one_live [] (pre ++ Spawned n p :: post) -> is_server p = true ->
  live_after [] pre = [].
Proof.
  intros O Hs. apply one_live_app in O as [_ O]. simpl in O. rewrite Hs in O.
  destruct O as [_ O].
  assert (Hl : (List.length (n :: live_after [] pre) <= 1)%nat) by (destruct post; apply O).
  destruct (live_after [] pre); simpl in Hl; [reflexivity|lia].
Qed.

Lemma triple_run_serve w cmd fuel iters open :
  triple (eq []) (run_serve w cmd fuel iters open) (fun _ _ => True).
Proof.
  unfold run_serve.
  apply triple_neutral_bind; [apply emits_workspace_dir|simpl; lia| |auto|auto]; intros ws.
  destruct (negb (w_watch_ok w)).
  - intros s l <-. exists []. simpl. rewrite app_nil_r. auto.
  - eapply triple_conseq; [apply triple_serve_loop|auto|auto].
Qed.

Lemma kf_run_serve w cmd fuel iters open : kill_fatal (run_serve w cmd fuel iters open).
Proof.
  unfold run_serve.
  apply kf_bind; [apply kf_of_emits, emits_workspace_dir|intros ws].
  destruct (negb (w_watch_ok w)); [apply kf_of_emits, emits_bail|apply kf_serve_loop].
Qed.

(** C4: whatever the world and however many triggers arrive, [run_serve]
    never holds two live server handles: at every point of its trace at
    most one [cargo run] handle is live, so each server is spawned only
    when no other is live (the previous one was killed or dropped first);
    and a failed kill is the last action of the run, which then fails
    with ["failed to stop server"]. *)
Theorem C4_single_server_handle w cmd fuel iters open s :
  exists seg,
    st_trace (snd (run_serve w cmd fuel iters open s)) = st_trace s ++ seg /\
    one_live [] seg /\
    (forall pre n p post, seg = pre ++ Spawned n p :: post -> is_server p = true ->
       live_after [] pre = []) /\
    (forall n, In (KillFailed n) seg ->
       fst (run_serve w cmd fuel iters open s) = Err "failed to stop server" /\
       exists pre, seg = pre ++ [KillFailed n]).
Proof.
  destruct (triple_run_serve w cmd fuel iters open s [] eq_refl) as [seg [E [O _]]].
  destruct (kf_run_serve w cmd fuel iters open s) as [seg' [E' K]].
  rewrite E in E'. apply app_inv_head in E'. subst seg'.
  exists seg. split; [exact E|]. split; [exact O|]. split; [|exact K].
  intros pre n p post -> Hs. eapply one_live_spawn; eauto.
Qed.

Lemma C4_single_server_handle_witness :
  exists seg,
    st_trace (snd (run_serve world_ok (Serve false) 3 3 false (st0 [5%Z; 50%Z]))) =
      st_trace (st0 [5%Z; 50%Z]) ++ seg /\
    one_live [] seg /\
    (forall pre n p post, seg = pre ++ Spawned n p :: post -> is_server p = true ->
       live_after [] pre = []) /\
    (forall n, In (KillFailed n) seg ->
       fst (run_serve world_ok (Serve false) 3 3 false (st0 [5%Z; 50%Z])) =
         Err "failed to stop server" /\
       exists pre, seg = pre ++ [KillFailed n]).
Proof. apply (C4_single_server_handle world_ok (Serve false) 3 3 false (st0 [5%Z; 50%Z])). Defined.

(** *** The health check of [serve_once] *)

Definition with_child (w : World) (f : nat -> ChildOutcome) : World :=
  mkWorld (w_workspace w) (w_bin_name w) (w_listen w) (w_watch_ok w) f
          (w_create w) (w_relay_io w) (w_rand w) (w_target_dir w) (w_files w)
          (w_probe w) (w_clock w) (w_kill w) (w_term_ok w)
          (w_mkdir w) (w_json_ok w) (w_canon_err w).

(** The probes [n] polls of the loop send, from probe number [k] on. *)
Definition probes (id : nat) (addr : string) (k n : nat) : list Action :=
  map (fun i => Probe id i addr) (seq k n).

(** A workspace whose server (spawn number 3: after [trunk], [cargo build]
    and [cargo metadata]) exits at once with a failure, so that no request
    ever succeeds. *)
Definition world_dead : World :=
  mkWorld (Some "/ws") "app" "127.0.0.1:3000" true
          (fun n => if Nat.eqb n 3 then Exits false else Exits true)
          (fun _ => true) (fun _ => ([ReadChunk 0], [])) (fun _ => Some "r")
          (Some "/ws/target") (fun p => String.eqb p "/ws/target/release/app")
          (fun _ => NotReady) (fun n => Z.of_nat n) (fun _ => true) true
          (fun _ => true) true None.

Lemma wait_ready_with_child w f fuel c addr :
  wait_ready (with_child w f) fuel c addr = wait_ready w fuel c addr.
Proof. induction fuel as [|fuel IH]; simpl; [reflexivity|]. rewrite IH. reflexivity. Qed.

Lemma wait_ready_not_ready w fuel c addr s :
  (forall k, st_probes s <= k < st_probes s + fuel -> w_probe w k = NotReady)%nat ->
  wait_ready w fuel c addr s =
    (Pending, mkSt (st_trace s ++ probes (child_id c) addr (st_probes s) fuel)
                   (st_spawns s) (st_creates s) (st_rands s)
                   (st_probes s + fuel) (st_clock s) (st_changes s)).
Proof.
  revert s; induction fuel as [|fuel IH]; intros s H; simpl.
  - destruct s; simpl; rewrite app_nil_r, Nat.add_0_r; reflexivity.
  - rewrite (H (st_probes s)) by lia.
    rewrite IH by (simpl; intros k Hk; apply H; lia).
    destruct s; simpl. rewrite <- app_assoc. f_equal. f_equal. lia.
Qed.

Lemma wait_ready_ok w fuel c addr s :
  fst (wait_ready w fuel c addr s) = Ok tt ->
  exists k, (st_probes s <= k < st_probes s + fuel)%nat /\ w_probe w k = Ready /\
    (forall j, st_probes s <= j < k -> w_probe w j = NotReady)%nat.
Proof.
  revert s; induction fuel as [|fuel IH]; intros s H; simpl in H; [discriminate H|].
  destruct (w_probe w (st_probes s)) eqn:Ep; try discriminate H.
  - exists (st_probes s). split; [lia|]. split; [exact Ep|]. intros j Hj; lia.
  - destruct (IH _ H) as [k [Hk [Hr Hn]]]. simpl in *.
    exists k. split; [lia|]. split; [exact Hr|].
    intros j Hj. destruct (Nat.eq_dec j (st_probes s)) as [->|]; [exact Ep|]. apply Hn; lia.
Qed.

Lemma wait_ready_err w fuel c addr s e :
  fst (wait_ready w fuel c addr s) = Err e ->
  e = "failed to build http client" /\
  exists k, (st_probes s <= k < st_probes s + fuel)%nat /\ w_probe w k = ClientBuildFails.
Proof.
  revert s; induction fuel as [|fuel IH]; intros s H; simpl in H; [discriminate H|].
  destruct (w_probe w (st_probes s)) eqn:Ep; try discriminate H.
  - injection H as <-. split; [reflexivity|]. exists (st_probes s). split; [lia|exact Ep].
  - destruct (IH _ H) as [He [k [Hk Hr]]]. split; [exact He|]. simpl in *.
    exists k. split; [lia|exact Hr].
Qed.

(** C5 (counterexample): the server of [world_dead] has exited, yet
    [serve_once] keeps polling it: after its spawn every remaining step of
    the run is a probe of the dead server, and the run has not finished. *)
Lemma C5_polls_after_server_exit :
  w_child world_dead 3 = Exits false /\
  fst (serve_once world_dead (Serve false) 4 (st0 [])) = Pending /\
  exists pre p,
    is_server p = true /\
    st_trace (snd (serve_once world_dead (Serve false) 4 (st0 []))) =
      pre ++ Spawned 3 p :: probes 3 (http_listen_addr world_dead) 0 4.
Proof.
  split; [reflexivity|]. split; [vm_compute; reflexivity|].
  exists (firstn 18 (st_trace (snd (serve_once world_dead (Serve false) 4 (st0 []))))).
  eexists. split; [|cbv; reflexivity]. reflexivity.
Qed.

(** C5 (amended): the health check never looks at the server process.
    It returns as soon as a probe gets a successful response, fails only
    when the HTTP client cannot be built, and otherwise keeps probing,
    one probe per round, whatever the process did: a loop of [fuel] rounds
    that sees no successful response is still running after [fuel]
    probes. *)
Theorem C5_poll_until_response w f fuel c addr s :
  wait_ready (with_child w f) fuel c addr = wait_ready w fuel c addr /\
  ((forall k, st_probes s <= k < st_probes s + fuel -> w_probe w k = NotReady)%nat ->
   wait_ready w fuel c addr s =
     (Pending, mkSt (st_trace s ++ probes (child_id c) addr (st_probes s) fuel)
                    (st_spawns s) (st_creates s) (st_rands s)
                    (st_probes s + fuel) (st_clock s) (st_changes s))) /\
  (fst (wait_ready w fuel c addr s) = Ok tt ->
   exists k, (st_probes s <= k < st_probes s + fuel)%nat /\ w_probe w k = Ready /\
     (forall j, st_probes s <= j < k -> w_probe w j = NotReady)%nat) /\
  (forall e, fst (wait_ready w fuel c addr s) = Err e ->
   e = "failed to build http client" /\
   exists k, (st_probes s <= k < st_probes s + fuel)%nat /\ w_probe w k = ClientBuildFails).
Proof.
  split; [apply wait_ready_with_child|].
  split; [apply wait_ready_not_ready|].
  split; [apply wait_ready_ok|].
  intros e; apply wait_ready_err.
Qed.

Lemma C5_poll_until_response_witness :
  (forall k, 0 <= k < 0 + 4 -> w_probe world_dead k = NotReady)%nat /\
  wait_ready world_dead 4 (mkChild 3 (server_cmd world_dead "/ws" "m")) "a" (st0 []) =
    (Pending, mkSt (probes 3 "a" 0 4) 0 0 0 4 0 []).
Proof.
  split; [intros; reflexivity|].
  apply (proj1 (proj2 (C5_poll_until_response world_dead (w_child world_dead) 4
                         (mkChild 3 (server_cmd world_dead "/ws" "m")) "a" (st0 [])))).
  intros; reflexivity.
Defined.

(** *** The browser opener *)

(** A workspace whose frontend never builds: both [trunk] attempts (spawns
    0 and 1) fail; every later process succeeds. *)
Definition world_nobuild : World :=
  mkWorld (Some "/ws") "app" "127.0.0.1:3000" true
          (fun n => if Nat.ltb n 2 then Exits false else Exits true)
          (fun _ => true) (fun _ => ([ReadChunk 0], [])) (fun _ => Some "r")
          (Some "/ws/target") (fun p => String.eqb p "/ws/target/release/app")
          (fun _ => Ready) (fun n => Z.of_nat n) (fun _ => true) true
          (fun _ => true) true None.

(** The action spawns the browser opener. *)
Definition opens (a : Action) : bool :=
  match a with
  | Spawned _ p => String.eqb (program p) "open"
  | _ => false
  end.

Definition n_opens (seg : list Action) : nat := List.length (filter opens seg).

(** [m] spawns the browser opener at most [k] times. *)
Definition opens_le {A} (k : nat) (m : M A) : Prop :=
  forall s, exists seg, st_trace (snd (m s)) = st_trace s ++ seg /\ (n_opens seg <= k)%nat.

Lemma n_opens_app a b : n_opens (a ++ b) = (n_opens a + n_opens b)%nat.
Proof. unfold n_opens. rewrite filter_app, length_app. reflexivity. Qed.

Lemma opens_le_of_emits {A} (m : M A) : emits (fun a => opens a = false) m -> opens_le 0 m.
Proof.
  intros Hm s. destruct (Hm s) as [seg [E F]]. exists seg. split; [exact E|].
  unfold n_opens. clear E. induction F as [|a seg Ha F IH]; simpl; [lia|]. rewrite Ha. exact IH.
Qed.

Lemma opens_le_bind {A B} j k (m : M A) (f : A -> M B) :
  opens_le j m -> (forall a, opens_le k (f a)) -> opens_le (j + k) (bind m f).
Proof.
  intros Hm Hf s. unfold bind.
  destruct (Hm s) as [seg1 [E1 N1]].
  destruct (m s) as [[a|e|] s1]; simpl in *.
  - destruct (Hf a s1) as [seg2 [E2 N2]].
    exists (seg1 ++ seg2). rewrite E2, E1, app_assoc. split; [reflexivity|].
    rewrite n_opens_app. lia.
  - exists seg1. split; [exact E1|lia].
  - exists seg1. split; [exact E1|lia].
Qed.

Lemma opens_le_mono {A} j k (m : M A) : (j <= k)%nat -> opens_le j m -> opens_le k m.
Proof. intros Hjk Hm s. destruct (Hm s) as [seg [E N]]. exists seg. split; [exact E|lia]. Qed.

Lemma opens_le_drop_on_err {A} k (m : M A) c : opens_le k m -> opens_le k (drop_on_err c m).
Proof.
  intros Hm s. destruct (Hm s) as [seg [E N]]. unfold drop_on_err.
  destruct (m s) as [[a|e|] s1]; simpl in *; eauto.
  exists (seg ++ [Dropped (child_id c)]). rewrite E, app_assoc. split; [reflexivity|].
  rewrite n_opens_app. replace (n_opens [Dropped (child_id c)]) with 0%nat by reflexivity. lia.
Qed.

Lemma build_frontend_no_open w cmd : emits (fun a => opens a = false) (build_frontend w cmd).
Proof. unfold_build. destruct cmd; cbn [is_release]; repeat emits_step; simpl; auto. Qed.

Lemma build_backend_no_open w cmd f : emits (fun a => opens a = false) (build_backend w cmd f).
Proof. unfold_build. destruct cmd; cbn [is_release]; repeat emits_step; simpl; auto. Qed.

Lemma emits_wait_ready P w fuel c addr :
  (forall k, P (Probe (child_id c) k addr)) -> emits P (wait_ready w fuel c addr).
Proof.
  intros HP. revert c addr HP; induction fuel as [|fuel IH]; intros c addr HP s; simpl.
  - exists []; rewrite app_nil_r; auto.
  - destruct (w_probe w (st_probes s)); simpl.
    + exists []; rewrite app_nil_r; auto.
    + eexists; split; [reflexivity|]. repeat constructor. apply HP.
    + destruct (IH c addr HP (tell_st (Probe (child_id c) (st_probes s) addr) (next_probe s)))
        as [seg [E F]].
      rewrite E. exists (Probe (child_id c) (st_probes s) addr :: seg). simpl.
      rewrite <- app_assoc. split; [reflexivity|]. constructor; auto.
Qed.

Lemma serve_once_no_open w cmd fuel : emits (fun a => opens a = false) (serve_once w cmd fuel).
Proof.
  unfold serve_once.
  apply emits_bind; [apply emits_workspace_dir|intros ws].
  apply emits_bind; [apply build_frontend_no_open|intros f].
  apply emits_bind; [apply build_backend_no_open|intros b].
  apply emits_bind; [apply emits_to_json|intros meta].
  apply emits_bind; [apply emits_spawn; reflexivity|intros c].
  apply emits_bind; [|intros u; apply emits_ret].
  apply emits_drop_on_err; [reflexivity|].
  apply emits_wait_ready. reflexivity.
Qed.

Lemma serve_iteration_no_open w cmd fuel start addr :
  opens_le 0 (serve_iteration w cmd fuel start addr).
Proof.
  intros s. unfold serve_iteration.
  destruct (opens_le_of_emits _ (serve_once_no_open w cmd fuel) s) as [seg1 [E1 N1]].
  destruct (serve_once w cmd fuel s) as [[c|e|] s1]; simpl in *.
  - assert (H : opens_le 0 (drop_on_err c (_ <- report_started w start addr ;; ret (Some c)))).
    { apply opens_le_drop_on_err, opens_le_of_emits.
      apply emits_bind; [|intros; apply emits_ret].
      unfold report_started. repeat emits_step; reflexivity. }
    destruct (H s1) as [seg2 [E2 N2]].
    exists (seg1 ++ seg2). rewrite E2, E1, app_assoc. split; [reflexivity|].
    rewrite n_opens_app. lia.
  - unfold bind, log, tell, ret; simpl.
    exists (seg1 ++ [Logged ("failed to build development server: " ++ e)]).
    rewrite E1, app_assoc. split; [reflexivity|]. rewrite n_opens_app.
    replace (n_opens [Logged ("failed to build development server: " ++ e)]) with 0%nat
      by reflexivity. lia.
  - exists seg1; auto.
Qed.

Lemma open_browser_opens_once w addr : opens_le 1 (open_browser w addr).
Proof.
  intros s. unfold open_browser, bind, workspace_dir, ret, bail, spawn, wait.
  destruct (w_workspace w) as [ws|]; simpl.
  - destruct (w_child w (st_spawns s)) as [| |b] eqn:Ec; simpl; rewrite ?Ec; simpl.
    + exists []. rewrite app_nil_r. split; [reflexivity|]. unfold n_opens; simpl; lia.
    + exists [Spawned (st_spawns s) (open_cmd ws addr)].
      split; [reflexivity|]. unfold n_opens; simpl; lia.
    + exists [Spawned (st_spawns s) (open_cmd ws addr)].
      split; [reflexivity|]. unfold n_opens; simpl; lia.
  - destruct (w_canon_err w); simpl;
      (exists []; rewrite app_nil_r; split; [reflexivity|unfold n_opens; simpl; lia]).
Qed.

(** The rest of the loop after an iteration, in which [browser_step] has
    spawned the opener at most [k] times. *)
Lemma serve_loop_opens w cmd fuel iters open first_run :
  opens_le (if open && first_run then 1 else 0)
    (serve_loop w cmd fuel iters open first_run).
Proof.
  revert first_run. induction iters as [|iters IH]; intros first_run; simpl.
  - apply opens_le_mono with (j := 0%nat); [destruct (open && first_run); lia|].
    apply opens_le_of_emits, emits_pending.
  - apply opens_le_mono
      with (j := (0 + (0 + ((if open && first_run then 1 else 0) + (0 + 0))))%nat);
      [destruct (open && first_run); lia|].
    apply opens_le_bind; [apply opens_le_of_emits, emits_now|intros start].
    apply opens_le_bind; [apply serve_iteration_no_open|intros o].
    apply opens_le_bind.
    { assert (B : opens_le (if open && first_run then 1 else 0)
                    (browser_step w open first_run (http_listen_addr w))).
      { unfold browser_step. destruct (open && first_run);
          [apply open_browser_opens_once|apply opens_le_of_emits, emits_ret]. }
      destruct o as [c|]; simpl; [apply opens_le_drop_on_err|]; exact B. }
    intros u.
    apply opens_le_bind; [apply opens_le_of_emits, emits_wait_for_change|intros changed].
    destruct changed; simpl.
    + apply opens_le_mono with (j := (0 + 0)%nat); [lia|].
      apply opens_le_bind.
      * destruct o as [c|]; simpl; apply opens_le_of_emits;
          [intros s; unfold kill; destruct (w_kill w (child_id c));
           eexists; (split; [reflexivity|]); repeat constructor
          |apply emits_ret].
      * intros; specialize (IH false). rewrite andb_false_r in IH. exact IH.
    + destruct o as [c|]; simpl; apply opens_le_of_emits;
        [apply emits_bind; [apply emits_tell; reflexivity|intros; apply emits_ret]
        |apply emits_ret].
Qed.

Lemma kf_in {A} (m : M A) s x : kill_fatal m -> In x (st_trace s) -> In x (st_trace (snd (m s))).
Proof. intros K H. destruct (K s) as [seg [E _]]. rewrite E. apply in_or_app; auto. Qed.

Lemma open_browser_spawns w addr ws s :
  w_workspace w = Some ws -> w_child w (st_spawns s) <> SpawnFails ->
  In (Spawned (st_spawns s) (open_cmd ws addr)) (st_trace (snd (open_browser w addr s))).
Proof.
  intros Hws Hc. unfold open_browser, bind, workspace_dir, ret, bail, spawn, wait.
  rewrite Hws. destruct (w_child w (st_spawns s)) as [| |b] eqn:Ec; [congruence| |];
    simpl; rewrite Ec; simpl; apply in_or_app; simpl; auto.
Qed.

(** The first iteration of [run_serve] runs the opener after a failed
    [serve_once]. *)
Lemma first_failed_iteration_opens w cmd fuel n ws e s s1 :
  w_workspace w = Some ws -> w_watch_ok w = true ->
  serve_once w cmd fuel (next_clock s) = (Err e, s1) ->
  w_child w (st_spawns s1) <> SpawnFails ->
  In (Spawned (st_spawns s1) (open_cmd ws (http_listen_addr w)))
     (st_trace (snd (run_serve w cmd fuel (S n) true s))).
Proof.
  intros Hws Hwatch Hso Hsp.
  unfold run_serve. unfold bind at 1. unfold workspace_dir at 1. rewrite Hws. cbv beta iota.
  unfold ret at 1. rewrite Hwatch. cbn [negb].
  cbn [serve_loop]. unfold bind at 1. unfold now at 1. cbv beta iota.
  unfold bind at 1. unfold serve_iteration at 1. rewrite Hso.
  unfold bind at 1. unfold log, tell at 1. cbv beta iota. unfold ret at 1.
  cbn [drop_opt browser_step andb].
  set (s2 := tell_st _ s1).
  assert (Hin := open_browser_spawns w (http_listen_addr w) ws s2 Hws Hsp).
  unfold bind at 1.
  destruct (open_browser w (http_listen_addr w) s2) as [[u|e'|] s3]; simpl in *; auto.
  eapply kf_in; [|exact Hin].
  apply kf_bind; [apply kf_of_emits, emits_wait_for_change|intros changed].
  destruct changed; simpl; [|apply kf_ret].
  apply kf_bind; [apply kf_ret|intros; apply kf_serve_loop].
Qed.

Lemma run_serve_opens w cmd fuel iters (open : bool) :
  opens_le (if open then 1 else 0) (run_serve w cmd fuel iters open).
Proof.
  unfold run_serve.
  apply opens_le_mono with (j := (0 + (if open then 1 else 0))%nat); [lia|].
  apply opens_le_bind; [apply opens_le_of_emits, emits_workspace_dir|intros ws].
  destruct (negb (w_watch_ok w)).
  - apply opens_le_mono with (j := 0%nat); [destruct open; lia|].
    apply opens_le_of_emits, emits_bail.
  - pose proof (serve_loop_opens w cmd fuel iters open true) as H.
    rewrite andb_true_r in H. exact H.
Qed.

(** C6 (counterexample): in [world_nobuild] the first build fails, no
    server is ever spawned, and the run still spawns the browser opener
    (spawn number 2, after the two [trunk] attempts). *)
Lemma C6_opened_after_failed_build :
  fst (run_serve world_nobuild (Serve true) 3 2 true (st0 [])) = Ok tt /\
  In (Logged "failed to build development server: trunk failed with status")
     (st_trace (snd (run_serve world_nobuild (Serve true) 3 2 true (st0 [])))) /\
  In (Spawned 2 (open_cmd "/ws" (http_listen_addr world_nobuild)))
     (st_trace (snd (run_serve world_nobuild (Serve true) 3 2 true (st0 [])))) /\
  Forall (fun a => match a with Spawned _ p => is_server p = false | _ => True end)
     (st_trace (snd (run_serve world_nobuild (Serve true) 3 2 true (st0 [])))).
Proof.
  split; [vm_compute; reflexivity|].
  split; [vm_compute; tauto|].
  split; [vm_compute; tauto|].
  vm_compute. repeat constructor.
Qed.

(** C6 (amended): the opener is run on the first iteration only, right
    after its build-and-serve step, whether that step succeeded or not: a
    run of [run_serve] spawns it at most once, and never when [open] is
    false; the iterations after the first never spawn it; and when the
    first build fails, the opener is still spawned (when its spawn
    succeeds). *)
Theorem C6_browser_opened_on_first_iteration w cmd fuel iters open s :
  (exists seg, st_trace (snd (run_serve w cmd fuel iters open s)) = st_trace s ++ seg /\
     (n_opens seg <= if open then 1 else 0)%nat) /\
  (forall n, opens_le 0 (serve_loop w cmd fuel n open false)) /\
  (forall n ws e s1, iters = S n -> open = true ->
     w_workspace w = Some ws -> w_watch_ok w = true ->
     serve_once w cmd fuel (next_clock s) = (Err e, s1) ->
     w_child w (st_spawns s1) <> SpawnFails ->
     In (Spawned (st_spawns s1) (open_cmd ws (http_listen_addr w)))
        (st_trace (snd (run_serve w cmd fuel iters open s)))).
Proof.
  split; [apply run_serve_opens|].
  split.
  - intros n. pose proof (serve_loop_opens w cmd fuel n open false) as H.
    rewrite andb_false_r in H. exact H.
  - intros n ws e s1 -> -> Hws Hwatch Hso Hsp.
    eapply first_failed_iteration_opens; eauto.
Qed.

Lemma C6_browser_opened_on_first_iteration_witness :
  In (Spawned (st_spawns (snd (serve_once world_nobuild (Serve true) 3 (next_clock (st0 [])))))
              (open_cmd "/ws" (http_listen_addr world_nobuild)))
     (st_trace (snd (run_serve world_nobuild (Serve true) 3 2 true (st0 [])))).
Proof.
  apply (proj2 (proj2 (C6_browser_opened_on_first_iteration
                         world_nobuild (Serve true) 3 2 true (st0 [])))
           1 "/ws" "trunk failed with status"
           (snd (serve_once world_nobuild (Serve true) 3 (next_clock (st0 []))))).
  - reflexivity.
  - reflexivity.
  - reflexivity.
  - reflexivity.
  - vm_compute. reflexivity.
  - vm_compute. discriminate.
Defined.

(** *** A failed build in the serve loop *)

(** [world_nobuild] where, in addition, the browser opener (spawn number 2)
    cannot be spawned. *)
Definition world_noopen : World :=
  mkWorld (Some "/ws") "app" "127.0.0.1:3000" true
          (fun n => if Nat.ltb n 2 then Exits false
                    else if Nat.eqb n 2 then SpawnFails else Exits true)
          (fun _ => true) (fun _ => ([ReadChunk 0], [])) (fun _ => Some "r")
          (Some "/ws/target") (fun p => String.eqb p "/ws/target/release/app")
          (fun _ => Ready) (fun n => Z.of_nat n) (fun _ => true) true
          (fun _ => true) true None.

Lemma skip_stale_some start cs rest :
  skip_stale start cs = Some rest ->
  exists pre t, cs = pre ++ t :: rest /\ (start < t)%Z /\ Forall (fun t' => t' <= start)%Z pre.
Proof.
  induction cs as [|t cs IH]; simpl; [discriminate|].
  destruct (Z.ltb_spec start t) as [Hlt|Hge]; intros H.
  - injection H as <-. exists [], t. auto.
  - destruct (IH H) as [pre [t' [-> [Hl F]]]]. exists (t :: pre), t'. auto.
Qed.

Lemma skip_stale_none start cs :
  skip_stale start cs = None -> Forall (fun t => t <= start)%Z cs.
Proof.
  induction cs as [|t cs IH]; simpl; [auto|].
  destruct (Z.ltb_spec start t) as [Hlt|Hge]; [discriminate|auto].
Qed.

(** C8 (counterexample): with [open] set, the first build of
    [world_noopen] fails and the opener cannot be spawned: the loop stops
    with that error at once, without waiting for the pending trigger. *)
Lemma C8_opener_failure_aborts :
  run_serve world_noopen (Serve true) 3 2 true (st0 [5%Z]) =
    (Err "failed to spawn process",
     snd (run_serve world_noopen (Serve true) 3 2 true (st0 [5%Z]))) /\
  In (Logged "failed to build development server: trunk failed with status")
     (st_trace (snd (run_serve world_noopen (Serve true) 3 2 true (st0 [5%Z])))) /\
  st_changes (snd (run_serve world_noopen (Serve true) 3 2 true (st0 [5%Z]))) = [5%Z].
Proof.
  split; [vm_compute; reflexivity|].
  split; [vm_compute; tauto|vm_compute; reflexivity].
Qed.

(** C8 (amended): in an iteration whose [serve_once] fails with [e], the
    loop logs [e] and holds no server; it then runs the browser step (the
    opener, on the first iteration with [open] set, and nothing
    otherwise). When that step succeeds the loop waits: it skips the
    triggers not newer than the iteration's start, starts the next
    iteration (with nothing to kill) at the first newer one, and returns
    [Ok] when the stream ends; when the opener fails, the loop stops with
    its error. *)
Theorem C8_failed_build_waits w cmd fuel n open first_run s e s1 :
  serve_once w cmd fuel (next_clock s) = (Err e, s1) ->
  (forall u s3,
     browser_step w open first_run (http_listen_addr w)
       (tell_st (Logged ("failed to build development server: " ++ e)) s1) = (Ok u, s3) ->
     serve_loop w cmd fuel (S n) open first_run s =
       match skip_stale (w_clock w (st_clock s)) (st_changes s3) with
       | None => (Ok tt, set_changes [] s3)
       | Some rest => serve_loop w cmd fuel n open false (set_changes rest s3)
       end) /\
  (forall e' s3,
     browser_step w open first_run (http_listen_addr w)
       (tell_st (Logged ("failed to build development server: " ++ e)) s1) = (Err e', s3) ->
     serve_loop w cmd fuel (S n) open first_run s = (Err e', s3)) /\
  (open && first_run = false ->
     forall s2, browser_step w open first_run (http_listen_addr w) s2 = (Ok tt, s2)) /\
  (forall cs rest, skip_stale (w_clock w (st_clock s)) cs = Some rest ->
     exists pre t, cs = pre ++ t :: rest /\ (w_clock w (st_clock s) < t)%Z /\
       Forall (fun t' => t' <= w_clock w (st_clock s))%Z pre) /\
  (forall cs, skip_stale (w_clock w (st_clock s)) cs = None ->
     Forall (fun t => t <= w_clock w (st_clock s))%Z cs).
Proof.
  intros Hso.
  assert (Hloop : serve_loop w cmd fuel (S n) open first_run s =
    bind (browser_step w open first_run (http_listen_addr w))
      (fun _ => changed <- wait_for_change (w_clock w (st_clock s)) ;;
                if negb changed then ret tt
                else _ <- stop_server w None ;; serve_loop w cmd fuel n open false)
      (tell_st (Logged ("failed to build development server: " ++ e)) s1)).
  { cbn [serve_loop]. unfold bind at 1. unfold now at 1. cbv beta iota.
    unfold bind at 1. unfold serve_iteration at 1. rewrite Hso. reflexivity. }
  split; [|split; [|split; [|split]]].
  - intros u s3 Hb. rewrite Hloop. unfold bind at 1. rewrite Hb.
    unfold bind, wait_for_change. cbn [st_changes set_changes].
    destruct (skip_stale (w_clock w (st_clock s)) (st_changes s3)); reflexivity.
  - intros e' s3 Hb. rewrite Hloop. unfold bind at 1. rewrite Hb. reflexivity.
  - intros Hf s2. unfold browser_step. rewrite Hf. reflexivity.
  - apply skip_stale_some.
  - apply skip_stale_none.
Qed.

Lemma C8_failed_build_waits_witness :
  serve_loop world_nobuild (Serve true) 3 2 true true (st0 [0%Z; 5%Z]) =
    match skip_stale (w_clock world_nobuild (st_clock (st0 [0%Z; 5%Z])))
            (st_changes (snd (browser_step world_nobuild true true (http_listen_addr world_nobuild)
               (tell_st (Logged ("failed to build development server: " ++ "trunk failed with status"))
                  (snd (serve_once world_nobuild (Serve true) 3 (next_clock (st0 [0%Z; 5%Z]))))))))
    with
    | None => (Ok tt, set_changes []
                (snd (browser_step world_nobuild true true (http_listen_addr world_nobuild)
                  (tell_st (Logged ("failed to build development server: " ++ "trunk failed with status"))
                     (snd (serve_once world_nobuild (Serve true) 3 (next_clock (st0 [0%Z; 5%Z]))))))))
    | Some rest => serve_loop world_nobuild (Serve true) 3 1 true false (set_changes rest
                (snd (browser_step world_nobuild true true (http_listen_addr world_nobuild)
                  (tell_st (Logged ("failed to build development server: " ++ "trunk failed with status"))
                     (snd (serve_once world_nobuild (Serve true) 3 (next_clock (st0 [0%Z; 5%Z]))))))))
    end.
Proof.
  apply (proj1 (C8_failed_build_waits world_nobuild (Serve true) 3 1 true true (st0 [0%Z; 5%Z])
                  "trunk failed with status"
                  (snd (serve_once world_nobuild (Serve true) 3 (next_clock (st0 [0%Z; 5%Z]))))
                  ltac:(vm_compute; reflexivity))
           tt
           (snd (browser_step world_nobuild true true (http_listen_addr world_nobuild)
              (tell_st (Logged ("failed to build development server: " ++ "trunk failed with status"))
                 (snd (serve_once world_nobuild (Serve true) 3 (next_clock (st0 [0%Z; 5%Z])))))))).
  vm_compute. reflexivity.
Defined.

End StackctlProofs.

(* ================================================================= *)
(** ** Further properties of [stackctl] *)

Module StackctlFacts.
Import Stackctl StackctlProofs.
Open Scope string_scope.
Open Scope list_scope.

(** *** Helpers on successful runs *)

Lemma workspace_dir_ok_inv w s ws s' :
  workspace_dir w s = (Ok ws, s') -> w_workspace w = Some ws /\ s' = s.
Proof.
  unfold workspace_dir, ret, bail.
  destruct (w_workspace w); [|destruct (w_canon_err w)]; intros H;
    injection H; intros; subst; auto; discriminate.
Qed.

Lemma spawn_ok_inv w p s c s' :
  spawn w p s = (Ok c, s') ->
  c = mkChild (st_spawns s) p /\ s' = tell_st (Spawned (st_spawns s) p) (next_spawn s).
Proof.
  unfold spawn. destruct (w_child w (st_spawns s)); intros H; injection H; auto.
  discriminate.
Qed.

Lemma tell_ok_inv a s u s' : tell a s = (Ok u, s') -> s' = tell_st a s.
Proof. unfold tell; intros H; injection H; auto. Qed.

Lemma now_ok_inv w s t s' : now w s = (Ok t, s') -> t = w_clock w (st_clock s) /\ s' = next_clock s.
Proof. unfold now; intros H; injection H; auto. Qed.

(** *** Directories *)

(** A successful [frontend_data_dir] or [backend_data_dir] returns the
    directory under [ws/.stackable]. *)
Lemma frontend_data_dir_ok w ws s b s' :
  w_workspace w = Some ws -> frontend_data_dir w s = (Ok b, s') ->
  b = join (join ws ".stackable") "frontend".
Proof.
  intros H. unfold frontend_data_dir, data_dir, workspace_dir, create_dir_all, bind, ret, tell, bail.
  rewrite H. destruct (w_mkdir w (join ws ".stackable")); [|discriminate].
  destruct (w_mkdir w (join (join ws ".stackable") "frontend")); [|discriminate].
  intros E; injection E; auto.
Qed.

Lemma backend_data_dir_ok w ws s b s' :
  w_workspace w = Some ws -> backend_data_dir w s = (Ok b, s') ->
  b = join (join ws ".stackable") "backend".
Proof.
  intros H. unfold backend_data_dir, data_dir, workspace_dir, create_dir_all, bind, ret, tell, bail.
  rewrite H. destruct (w_mkdir w (join ws ".stackable")); [|discriminate].
  destruct (w_mkdir w (join (join ws ".stackable") "backend")); [|discriminate].
  intros E; injection E; auto.
Qed.

(** *** Effects, following the values the program passes on *)

Lemma emits_bind_only {A B} P (m : M A) (f : A -> M B) a :
  (forall s b s', m s = (Ok b, s') -> b = a) ->
  emits P m -> emits P (f a) -> emits P (bind m f).
Proof.
  intros Ho Hm Hf s. unfold bind.
  destruct (Hm s) as [seg1 [E1 F1]].
  destruct (m s) as [[b|e|] s1] eqn:Em; simpl in *.
  - rewrite (Ho s b s1 Em) in *.
    destruct (Hf s1) as [seg2 [E2 F2]].
    exists (seg1 ++ seg2). rewrite E2, E1, app_assoc.
    split; [reflexivity|]. apply Forall_app; auto.
  - exists seg1; auto.
  - exists seg1; auto.
Qed.

Lemma emits_bind_spawn {B} P w p (f : Child -> M B) :
  (forall n, P (Spawned n p)) -> (forall n, emits P (f (mkChild n p))) ->
  emits P (bind (spawn w p) f).
Proof.
  intros Hp Hf s. unfold bind, spawn.
  destruct (w_child w (st_spawns s)); simpl;
    [exists []; rewrite app_nil_r; auto| |];
  destruct (Hf (st_spawns s) (tell_st (Spawned (st_spawns s) p) (next_spawn s)))
    as [seg [E F]];
  exists (Spawned (st_spawns s) p :: seg); rewrite E; simpl;
    (split; [rewrite <- app_assoc; reflexivity|constructor; auto]).
Qed.

Lemma workspace_dir_only w ws :
  w_workspace w = Some ws -> forall s b s', workspace_dir w s = (Ok b, s') -> b = ws.
Proof.
  intros H s b s' E. apply workspace_dir_ok_inv in E as [E _]. congruence.
Qed.

Lemma frontend_data_dir_only w ws :
  w_workspace w = Some ws ->
  forall s b s', frontend_data_dir w s = (Ok b, s') -> b = join (join ws ".stackable") "frontend".
Proof.
  intros H s b s' E. exact (frontend_data_dir_ok w ws s b s' H E).
Qed.

Lemma backend_data_dir_only w ws :
  w_workspace w = Some ws ->
  forall s b s', backend_data_dir w s = (Ok b, s') -> b = join (join ws ".stackable") "backend".
Proof.
  intros H s b s' E. exact (backend_data_dir_ok w ws s b s' H E).
Qed.

Lemma emits_kill P w c :
  P (Killed (child_id c)) -> P (KillFailed (child_id c)) -> emits P (kill w c).
Proof.
  intros H1 H2 s. unfold kill. destruct (w_kill w (child_id c)); simpl; eauto.
Qed.

(** One step of the programs, in a workspace [ws] known from a hypothesis. *)
Ltac fstep :=
  match goal with
  | H : w_workspace ?w = Some ?ws |- emits _ (bind (workspace_dir ?w) _) =>
      apply (emits_bind_only _ _ _ ws (workspace_dir_only w ws H)); [apply emits_workspace_dir|]
  | H : w_workspace ?w = Some ?ws |- emits _ (bind (frontend_data_dir ?w) _) =>
      apply (emits_bind_only _ _ _ _ (frontend_data_dir_only w ws H))
  | H : w_workspace ?w = Some ?ws |- emits _ (bind (backend_data_dir ?w) _) =>
      apply (emits_bind_only _ _ _ _ (backend_data_dir_only w ws H))
  | |- emits _ (bind (spawn _ _) _) => apply emits_bind_spawn; [intros ?|intros ?]
  | |- emits _ (if ?b then _ else _) =>
      progress cbn [Stdio_eqb stdout stderr child_proc set_stdout set_stderr arg is_release
                    frontend_proc backend_proc inherit_output
                    negb andb]
  | |- emits _ (build_frontend _ _) => unfold build_frontend
  | |- emits _ (build_backend _ _ _) => unfold build_backend
  | |- emits _ (frontend_data_dir _) => unfold frontend_data_dir
  | |- emits _ (backend_data_dir _) => unfold backend_data_dir
  | |- emits _ (data_dir _) => unfold data_dir
  | |- emits _ (build_dir _) => unfold build_dir
  | |- emits _ (frontend_build_dir _ _) => unfold frontend_build_dir
  | |- emits _ (backend_build_dir _ _) => unfold backend_build_dir
  | |- emits _ (create_dir_all _ _ _) => unfold create_dir_all
  | |- emits _ (bind (to_json _ _ _) _) => apply emits_bind; [apply emits_to_json|intros ?]
  | |- emits _ (relay_output _ _ _) => unfold relay_output
  | |- emits _ (retry_on_failure _ _ _ _) => unfold retry_on_failure
  | |- emits _ (open_browser _ _) => unfold open_browser
  | |- emits _ (report_started _ _ _) => unfold report_started
  | |- emits _ (drop_on_err _ _) => apply emits_drop_on_err
  | |- emits _ (wait_ready _ _ _ _) => apply emits_wait_ready; intros ?
  | |- emits _ (kill _ _) => apply emits_kill
  | |- emits _ (wait_for_change _) => apply emits_wait_for_change
  | |- emits _ _ => emits_step
  end.

(** *** The serve loop *)

Lemma emits_serve_iteration P w cmd fuel start addr :
  (forall n, P (Dropped n)) -> (forall m, P (Logged m)) -> (forall m, P (Printed m)) ->
  (forall ms, P (BuiltIn ms)) ->
  emits P (serve_once w cmd fuel) -> emits P (serve_iteration w cmd fuel start addr).
Proof.
  intros Hd Hl Hp Hbi Hso s. unfold serve_iteration.
  destruct (Hso s) as [seg1 [E1 F1]].
  destruct (serve_once w cmd fuel s) as [[c|e|] s1]; simpl in *.
  - assert (H : emits P (drop_on_err c (_ <- report_started w start addr ;; ret (Some c)))).
    { repeat fstep; auto. }
    destruct (H s1) as [seg2 [E2 F2]].
    exists (seg1 ++ seg2). rewrite E2, E1, app_assoc. split; [reflexivity|].
    apply Forall_app; auto.
  - unfold bind, log, tell, ret; simpl.
    exists (seg1 ++ [Logged ("failed to build development server: " ++ e)]).
    rewrite E1, app_assoc. split; [reflexivity|].
    apply Forall_app; split; [exact F1|repeat constructor; auto].
  - exists seg1; auto.
Qed.

Lemma emits_serve_loop P w cmd fuel iters open first_run :
  (forall n, P (Dropped n)) -> (forall n, P (Killed n)) -> (forall n, P (KillFailed n)) ->
  (forall m, P (Logged m)) -> (forall m, P (Printed m)) -> (forall ms, P (BuiltIn ms)) ->
  emits P (serve_once w cmd fuel) -> (forall addr, emits P (open_browser w addr)) ->
  emits P (serve_loop w cmd fuel iters open first_run).
Proof.
  intros Hd Hk Hkf Hl Hp Hbi Hso Hob. revert first_run.
  induction iters as [|iters IH]; intros first_run; simpl; [apply emits_pending|].
  apply emits_bind; [apply emits_now|intros start].
  apply emits_bind; [apply emits_serve_iteration; auto|intros o].
  apply emits_bind.
  { unfold browser_step.
    destruct o as [c|]; simpl; [apply emits_drop_on_err; [auto|]|];
      (destruct (open && first_run); [apply Hob|apply emits_ret]). }
  intros u. apply emits_bind; [apply emits_wait_for_change|intros changed].
  destruct changed; simpl.
  - apply emits_bind; [|intros; apply IH].
    destruct o as [c|]; simpl; [apply emits_kill; auto|apply emits_ret].
  - destruct o as [c|]; [|apply emits_ret].
    apply emits_bind; [apply emits_tell; auto|intros; apply emits_ret].
Qed.

(** *** Processes *)

(** A spawned process runs in the workspace with its stdin closed. *)
Definition spawn_in_ws (ws : string) (a : Action) : Prop :=
  match a with
  | Spawned _ p => current_dir p = ws /\ stdin p = Null
  | _ => True
  end.

(** Every process [stackctl] spawns, in either command ([trunk build],
    [cargo build], [cargo metadata], [cargo run] of the server and the
    [open] of the browser), runs in the workspace directory with
    [Stdio::null()] as stdin. *)
Theorem run_spawns_in_workspace w cmd fuel iters ws :
  w_workspace w = Some ws -> emits (spawn_in_ws ws) (run w cmd fuel iters).
Proof.
  intros Hws.
  assert (Hf : forall c, emits (spawn_in_ws ws) (build_frontend w c)).
  { intros [o|r]; repeat fstep; unfold frontend_proc, inherit_output; cbn; auto. }
  assert (Hb : forall c f, emits (spawn_in_ws ws) (build_backend w c f)).
  { intros [o|r] f; repeat fstep; unfold backend_proc, metadata_proc, inherit_output; cbn; auto. }
  unfold run. destruct cmd as [open|release].
  - unfold run_serve. repeat fstep.
    apply emits_serve_loop; cbn; auto.
    + unfold serve_once; cbv zeta. repeat fstep; cbn; auto.
    + intros addr. repeat fstep; cbn; auto.
  - unfold run_build. repeat fstep; cbn; auto.
Qed.

Lemma run_spawns_in_workspace_witness :
  emits (spawn_in_ws "/ws") (run world_ok (Serve true) 3 2).
Proof. exact (run_spawns_in_workspace world_ok (Serve true) 3 2 "/ws" eq_refl). Defined.

(** What a distribution build may do: spawn [trunk build .. --release],
    [cargo build --bin <bin> --release] (both with inherited output) and
    [cargo metadata] in the workspace; it starts no log relay, no server
    probe, and stops or drops no server. *)
Definition release_action (ws bin : string) (a : Action) : Prop :=
  match a with
  | Spawned _ p =>
      (exists d, p = mkProc "trunk" ["build"; "--dist"; d; join ws "index.html"; "--release"]
                         ws [] Null Inherit Inherit false) \/
      (exists d, p = mkProc "cargo" ["build"; "--bin"; bin; "--release"]
                         ws [("STACKABLE_FRONTEND_BUILD_DIR", d)] Null Inherit Inherit true) \/
      p = metadata_proc ws
  | Relay _ _ | Probe _ _ _ | Killed _ | KillFailed _ | Dropped _ => False
  | CreateDir _ | CopyFile _ _ | Logged _ | Printed _ | BuiltIn _ => True
  end.

(** [stackctl build] spawns only the release commands of both builds
    (with inherited output, never the quiet variants) and [cargo metadata]:
    it writes no log file, never starts the development server or the
    browser, and probes, stops or drops no server. *)
Theorem run_build_release_actions w r fuel iters ws :
  w_workspace w = Some ws ->
  emits (release_action ws (w_bin_name w)) (run w (Build r) fuel iters).
Proof.
  intros Hws. unfold run, run_build. repeat fstep;
    unfold frontend_proc, backend_proc, inherit_output, set_stderr, set_stdout, arg;
    cbn; eauto 6.
Qed.

Lemma run_build_release_actions_witness :
  emits (release_action "/ws" "app") (run world_ok (Build true) 3 1).
Proof. exact (run_build_release_actions world_ok true 3 1 "/ws" eq_refl). Defined.

(** *** Build logs of the development server *)

(** A log relay of a development build writes to
    [ws/.stackable/<side>/log-<stream>-<r>] for the frontend or backend
    side, the stdout or stderr stream and some random string [r]. *)
Definition dev_log_target (ws : string) (a : Action) : Prop :=
  match a with
  | Relay _ t =>
      exists side stream r, (side = "frontend" \/ side = "backend") /\
        (stream = "log-stdout-" \/ stream = "log-stderr-") /\
        t = join (join (join ws ".stackable") side) (stream ++ r)
  | _ => True
  end.

(** [stackctl serve] keeps the output of its quiet build attempts in log
    files under the workspace's [.stackable] directory, in the data
    directory of the side being built, and nowhere else. *)
Theorem run_serve_log_targets w open fuel iters ws :
  w_workspace w = Some ws -> emits (dev_log_target ws) (run w (Serve open) fuel iters).
Proof.
  intros Hws.
  unfold run, run_serve. repeat fstep.
  apply emits_serve_loop; cbn; auto.
  - unfold serve_once; cbv zeta. repeat fstep;
      try (hnf; do 3 eexists; split; [|split; [|reflexivity]]; auto; fail);
      cbn; auto.
  - intros addr. repeat fstep; cbn; auto.
Qed.

Lemma run_serve_log_targets_witness :
  emits (dev_log_target "/ws") (run world_ok (Serve false) 3 2).
Proof. exact (run_serve_log_targets world_ok false 3 2 "/ws" eq_refl). Defined.

(** *** Outcome of a distribution build *)

Lemma backend_build_dir_release_ok w r ws s b s' :
  w_workspace w = Some ws -> backend_build_dir w (Build r) s = (Ok b, s') ->
  b = join (join ws "build") "backend".
Proof.
  intros Hws. unfold backend_build_dir, build_dir, workspace_dir, create_dir_all, bind, ret, tell, bail.
  rewrite Hws. cbn -[join].
  destruct (w_mkdir w (join ws "build")); cbn -[join]; [|discriminate].
  destruct (w_mkdir w (join (join ws "build") "backend")); cbn -[join]; [|discriminate].
  intros E; injection E; auto.
Qed.

(** [stackctl build] succeeds only with [--release], in a workspace [ws]
    whose [cargo metadata] names a target directory [td]; its last three
    effects are then the copy of [td/release/<bin>] to
    [ws/build/backend/<bin>], the [Built in ..s!] line and the message
    naming that path. *)
Theorem run_build_result w r fuel iters s s' :
  run w (Build r) fuel iters s = (Ok tt, s') ->
  r = true /\
  exists ws td ms pre, w_workspace w = Some ws /\ w_target_dir w = Some td /\
    st_trace s' =
      pre ++ [CopyFile (join (join td "release") (w_bin_name w))
                       (join (join (join ws "build") "backend") (w_bin_name w));
              BuiltIn ms;
              Printed ("The server binary is available at: " ++
                       join (join (join ws "build") "backend") (w_bin_name w))].
Proof.
  intros H. unfold run, run_build in H. destruct r; [|discriminate H].
  split; [reflexivity|]. peel H.
  apply tell_ok_inv in H as ->.
  match goal with Hx : tell (BuiltIn _) _ = (Ok _, _) |- _ => apply tell_ok_inv in Hx as -> end.
  match goal with |- context [tell_st (BuiltIn _) ?sx] =>
    match goal with Hx : now _ _ = (Ok _, sx) |- _ => apply now_ok_inv in Hx as [_ ->] end end.
  match goal with Hx : build_backend _ _ _ _ = (Ok _, _) |- _ =>
    unfold build_backend in Hx; peel Hx end.
  match goal with Hx : workspace_dir _ _ = (Ok ?ws, _) |- _ =>
    apply workspace_dir_ok_inv in Hx as [Hws _] end.
  match goal with Hx : backend_build_dir _ _ _ = (Ok _, _) |- _ =>
    apply (backend_build_dir_release_ok _ _ _ _ _ _ Hws) in Hx; subst end.
  match goal with Hx : parse_metadata _ _ = (Ok _, _) |- _ =>
    apply parse_metadata_ok_inv in Hx as [Htd <-] end.
  match goal with Hx : copy _ _ _ _ = (Ok _, _) |- _ => apply copy_ok_inv in Hx as -> end.
  match goal with Hx : ret _ _ = (Ok _, _) |- _ => apply ret_ok_inv in Hx as [<- <-] end.
  unfold tell_st, next_clock; cbn [st_trace]. rewrite <- !app_assoc.
  do 4 eexists. split; [exact Hws|]. split; [exact Htd|]. reflexivity.
Qed.

Lemma run_build_result_witness :
  fst (run world_ok (Build true) 3 1 (st0 [])) = Ok tt /\
  true = true /\
  exists ws td ms pre, w_workspace world_ok = Some ws /\ w_target_dir world_ok = Some td /\
    st_trace (snd (run world_ok (Build true) 3 1 (st0 []))) =
      pre ++ [CopyFile (join (join td "release") "app") (join (join (join ws "build") "backend") "app");
              BuiltIn ms;
              Printed ("The server binary is available at: " ++
                       join (join (join ws "build") "backend") "app")].
Proof.
  assert (H : run world_ok (Build true) 3 1 (st0 []) =
              (Ok tt, snd (run world_ok (Build true) 3 1 (st0 [])))) by (vm_compute; reflexivity).
  split; [rewrite H; reflexivity|].
  exact (run_build_result world_ok true 3 1 (st0 []) _ H).
Defined.

(** *** The log copy loop *)

(** The copy of a relay task completes exactly when a read reports the end
    of the stream and every chunk read before it was written out. *)
Theorem copy_loop_ok reads writes :
  copy_loop reads writes = Ok tt <->
  exists lens rest,
    reads = map (fun n => ReadChunk (S n)) lens ++ ReadChunk 0 :: rest /\
    firstn (List.length lens) writes = repeat true (List.length lens).
Proof.
  split.
  - revert writes. induction reads as [|[[|n]|e] reads IH]; intros writes H; simpl in H;
      try discriminate H.
    + exists [], reads. auto.
    + destruct writes as [|[] writes]; try discriminate H.
      destruct (IH writes H) as [lens [rest [-> Hw]]].
      exists (n :: lens), rest. simpl. rewrite Hw. auto.
  - intros [lens [rest [-> Hw]]]. revert writes Hw.
    induction lens as [|n lens IH]; intros writes Hw; simpl; [reflexivity|].
    destruct writes as [|b writes]; simpl in Hw; [discriminate Hw|].
    injection Hw as -> Hw. apply IH. exact Hw.
Qed.

End StackctlFacts.
